(** * taxadb: the taxdump and accession2taxid parsers

    A shallow embedding of [taxadb/parser.py] and of [fatal] from
    [taxadb/util.py], and the properties of the two parsers.

    Conventions of the embedding.
    - A Python [str] is a Rocq [string] holding its UTF-8 encoding; a [bytes]
      object is a [string] as well (one character per byte).  Splitting and
      stripping on ASCII characters commute with the encoding.
    - A dict with string keys and values is a [gmap string string];
      [{**a, **b}] is [b ∪ a] (stdpp's union keeps the left operand on a
      shared key).
    - A call either returns or raises: [res].  What [fatal] prints on stderr
      is kept next to the result: [M].
    - A file is the list of lines its iterator produces ([open(p, 'r')] for
      the dump files, [gzip.open(p, 'rb')] for the accession file, taken to
      be a gzip file), each line with its newline.
    - A generator is described by what it has done once it is driven to its
      end: the batches it yielded, in order, and the way it stopped.  Its
      body starts at the first [next]; a failing [check_file] shows there.
    - [verbose] and [print] write to stdout and change neither a value nor
      the control flow; stdout is not part of the model. *)

From Stdlib Require Import ZArith Ascii String.
From stdpp Require Import gmap strings list fin_maps.

Open Scope string_scope.
Open Scope list_scope.
Open Scope Z_scope.

(** ** Python strings *)

Module Str.

Definition TAB : ascii := "009"%char.
Definition NL : ascii := "010"%char.
Definition PIPE : ascii := "|"%char.

(** [s.split(sep)] for a one-character separator: never an empty list. *)
Fixpoint split (sep : ascii) (s : string) : list string :=
  match s with
  | EmptyString => [EmptyString]
  | String c s' =>
      if Ascii.eqb c sep then EmptyString :: split sep s'
      else match split sep s' with
           | [] => [String c EmptyString]
           | f :: fs => String c f :: fs
           end
  end.

(** [s.lstrip(c)], [s.rstrip(c)] and [s.strip(c)] for a one-character set. *)
Fixpoint lstrip (c : ascii) (s : string) : string :=
  match s with
  | EmptyString => EmptyString
  | String a s' => if Ascii.eqb a c then lstrip c s' else s
  end.

Fixpoint rstrip (c : ascii) (s : string) : string :=
  match s with
  | EmptyString => EmptyString
  | String a s' =>
      match rstrip c s' with
      | EmptyString => if Ascii.eqb a c then EmptyString else String a EmptyString
      | r => String a r
      end
  end.

Definition strip (c : ascii) (s : string) : string := rstrip c (lstrip c s).

(** [needle in s]. *)
Fixpoint contains (needle s : string) : bool :=
  String.prefix needle s
  || match s with
     | EmptyString => false
     | String _ s' => contains needle s'
     end.

(** [b.decode()]: strict UTF-8.  The well-formed byte sequences are those
    of the Unicode standard (no overlong form, no surrogate, nothing above
    U+10FFFF). *)
Definition between (lo hi : N) (a : ascii) : bool :=
  ((lo <=? N_of_ascii a) && (N_of_ascii a <=? hi))%N.

Definition cont : ascii -> bool := between 0x80 0xBF.

Definition second_of_3 (a0 : ascii) : ascii -> bool :=
  if between 0xE0 0xE0 a0 then between 0xA0 0xBF
  else if between 0xED 0xED a0 then between 0x80 0x9F
  else cont.

Definition second_of_4 (a0 : ascii) : ascii -> bool :=
  if between 0xF0 0xF0 a0 then between 0x90 0xBF
  else if between 0xF4 0xF4 a0 then between 0x80 0x8F
  else cont.

Fixpoint utf8_valid (s : string) : bool :=
  match s with
  | EmptyString => true
  | String a0 s0 =>
      if between 0x00 0x7F a0 then utf8_valid s0
      else if between 0xC2 0xDF a0 then
        match s0 with
        | String a1 s1 => cont a1 && utf8_valid s1
        | _ => false
        end
      else if between 0xE0 0xEF a0 then
        match s0 with
        | String a1 (String a2 s2) =>
            second_of_3 a0 a1 && cont a2 && utf8_valid s2
        | _ => false
        end
      else if between 0xF0 0xF4 a0 then
        match s0 with
        | String a1 (String a2 (String a3 s3)) =>
            second_of_4 a0 a1 && cont a2 && cont a3 && utf8_valid s3
        | _ => false
        end
      else false
  end.

End Str.

(** ** Exceptions and results *)

Inductive exn : Type :=
| SystemExit (status : Z)
| IndexError
| UnicodeDecodeError
| TypeError
| OSError.

Inductive res (A : Type) : Type :=
| Ok (a : A)
| Raise (e : exn).
Arguments Ok {A} a.
Arguments Raise {A} e.

#[global] Instance res_ret : MRet res := fun A a => Ok a.
#[global] Instance res_bind : MBind res := fun A B f r =>
  match r with
  | Ok a => f a
  | Raise e => Raise e
  end.
#[global] Instance res_fmap : FMap res := fun A B f r =>
  match r with
  | Ok a => Ok (f a)
  | Raise e => Raise e
  end.

(** [l[i]] on a list. *)
Definition item {A} (l : list A) (i : nat) : res A :=
  match l !! i with
  | Some x => Ok x
  | None => Raise IndexError
  end.

Definition decode (b : string) : res string :=
  if Str.utf8_valid b then Ok b else Raise UnicodeDecodeError.

(** A [for x in l: s = body(s, x)] loop that an exception leaves. *)
Fixpoint for_each {S A} (body : S -> A -> res S) (s : S) (l : list A) : res S :=
  match l with
  | [] => Ok s
  | x :: l' =>
      match body s x with
      | Ok s' => for_each body s' l'
      | Raise e => Raise e
      end
  end.

(** The lines written to stderr, and the result. *)
Definition M (A : Type) : Type := (list string * res A)%type.

#[global] Instance M_ret : MRet M := fun A a => ([], Ok a).
#[global] Instance M_bind : MBind M := fun A B f m =>
  match m with
  | (err, Ok a) => let '(err', r) := f a in (err ++ err', r)
  | (err, Raise e) => (err, Raise e)
  end.

Definition lift {A} (r : res A) : M A := ([], r).

(** ** util.fatal *)

Definition fatal {A} (msg : option string) : M A :=
  ([match msg with
    | Some m => "[FATAL] " +:+ m
    | None => "[FATAL] An error occured"
    end],
   Raise (SystemExit 1)).

(** ** The file system *)

Inductive fs_entry : Type :=
| RegularFile (lines : list string)
| Directory
| Special.

Abbreviation filesystem := (gmap string fs_entry).

Definition os_path_exists (fs : filesystem) (p : string) : bool :=
  bool_decide (is_Some (fs !! p)).

Definition os_path_isfile (fs : filesystem) (p : string) : bool :=
  match fs !! p with
  | Some (RegularFile _) => true
  | _ => false
  end.

(** [open(p, 'r')] and [gzip.open(p, 'rb')], as the list of lines read. *)
Definition open (fs : filesystem) (p : option string) : res (list string) :=
  match p with
  | None => Raise TypeError
  | Some p =>
      match fs !! p with
      | Some (RegularFile lines) => Ok lines
      | _ => Raise OSError
      end
  end.

(** ** TaxaParser *)

Definition check_file (fs : filesystem) (element : option string) : M bool :=
  match element with
  | None => fatal (Some "Please provide an input file to check")
  | Some p =>
      if negb (os_path_exists fs p) then
        fatal (Some ("File " +:+ p +:+ " does not exist"))
      else if negb (os_path_isfile fs p) then
        fatal (Some (p +:+ " is not a file"))
      else mret true
  end.

(** ** The store *)

(** Modelled from the spec: the StoreGateway of section 4.4.  The tables
    [Taxa] and [Accession] of [taxadb/schema.py] are not part of the sources;
    the parsers use them for two queries only.  [knownTaxonomicIds] is the
    key set of [{str(x['ncbi_taxid']): True for x in Taxa.select(...)}], and
    [accessionExists a] says whether [Accession.get(Accession.accession == a)]
    returns a row instead of raising [Accession.DoesNotExist].

    The parsers only read the store, and a call is given one store.  A
    caller that inserts each yielded batch before it asks for the next one
    changes no later answer: an accession that the store did not have is
    among the accessions seen from its first eligible line on, and is not
    looked up again. *)
Record Store : Type := {
  knownTaxonomicIds : gset string;
  accessionExists : string -> bool
}.

(** ** TaxaDumpParser *)

Abbreviation dict := (gmap string string).

(** A dict display [{k1: v1, ..., kn: vn}]: the items are stored in turn. *)
Definition dict_of (items : list (string * string)) : dict :=
  foldl (fun d kv => <[kv.1 := kv.2]> d) ∅ items.

Record TaxaDumpParser : Type := {
  nodes_file : option string;
  names_file : option string
}.

(** Lines 96-106: the body of the loop over nodes.dmp. *)
Definition nodes_row (ncbi_ids : gset string) (nodes_data : list dict)
    (line : string) : res (list dict) :=
  let line_list := Str.split Str.PIPE line in
  ncbi_id ← Str.strip Str.TAB <$> item line_list 0;
  if decide (ncbi_id ∈ ncbi_ids) then Ok nodes_data
  else
    parent ← Str.strip Str.TAB <$> item line_list 1;
    level ← Str.strip Str.TAB <$> item line_list 2;
    Ok (nodes_data ++ [dict_of [("ncbi_taxid", ncbi_id);
                                ("parent_taxid", parent);
                                ("tax_name", "");
                                ("lineage_level", level)]]).

(** Lines 114-123: the body of the loop over names.dmp. *)
Definition names_row (ncbi_ids : gset string) (names_data : list dict)
    (line : string) : res (list dict) :=
  if Str.contains "scientific name" line then
    let line_list := Str.split Str.PIPE line in
    ncbi_id ← Str.strip Str.TAB <$> item line_list 0;
    if decide (ncbi_id ∈ ncbi_ids) then Ok names_data
    else
      taxid ← Str.strip Str.TAB <$> item line_list 0;
      name ← Str.strip Str.TAB <$> item line_list 1;
      Ok (names_data ++ [dict_of [("ncbi_taxid", taxid); ("tax_name", name)]])
  else Ok names_data.

Definition parse_nodes (ncbi_ids : gset string) (lines : list string)
  : res (list dict) :=
  for_each (nodes_row ncbi_ids) [] lines.

Definition parse_names (ncbi_ids : gset string) (lines : list string)
  : res (list dict) :=
  for_each (names_row ncbi_ids) [] lines.

(** Lines 127-130: [zip] stops at the shorter list; [{**nodes, **names}]. *)
Definition merge (nodes_data names_data : list dict) : list dict :=
  (fun p : dict * dict => p.2 ∪ p.1) <$> zip nodes_data names_data.

Definition taxdump (self : TaxaDumpParser) (fs : filesystem) (store : Store)
    (nodes_file_arg names_file_arg : option string) : M (list dict) :=
  let nodes_file :=
    if nodes_file_arg is None then nodes_file self else nodes_file_arg in
  let names_file :=
    if names_file_arg is None then names_file self else names_file_arg in
  _ ← check_file fs names_file;
  _ ← check_file fs nodes_file;
  let ncbi_ids := knownTaxonomicIds store in
  nodes_data ← lift (open fs nodes_file ≫= parse_nodes ncbi_ids);
  names_data ← lift (open fs names_file ≫= parse_names ncbi_ids);
  mret (merge nodes_data names_data).

(** The setters return the parser after the call next to the result. *)
Definition set_nodes_file (self : TaxaDumpParser) (fs : filesystem)
    (nodes_file_arg : option string) : TaxaDumpParser * M bool :=
  let checked :=
    _ ← (if nodes_file_arg is None
         then fatal (Some "Please provide an accession file to set")
         else mret ());
    check_file fs nodes_file_arg in
  match checked with
  | (err, Ok _) =>
      ({| nodes_file := nodes_file_arg; names_file := names_file self |},
       (err, Ok true))
  | (err, Raise e) => (self, (err, Raise e))
  end.

Definition set_names_file (self : TaxaDumpParser) (fs : filesystem)
    (names_file_arg : option string) : TaxaDumpParser * M bool :=
  let checked :=
    _ ← (if names_file_arg is None
         then fatal (Some "Please provide an accession file to set")
         else mret ());
    check_file fs names_file_arg in
  match checked with
  | (err, Ok _) =>
      ({| nodes_file := nodes_file self; names_file := names_file_arg |},
       (err, Ok true))
  | (err, Raise e) => (self, (err, Raise e))
  end.

(** ** Accession2TaxidParser *)

(** The entries are dicts with the two keys ['accession'] and ['taxid'],
    never merged or updated: a record with these two fields. *)
Record AccessionRecord : Type := {
  accession : string;
  taxid : string
}.

#[global] Instance AccessionRecord_eq_dec : EqDecision AccessionRecord.
Proof. solve_decision. Defined.

Record Accession2TaxidParser : Type := {
  acc_file : option string;
  chunk : option Z;
  fast : bool
}.

(** The constructor with its default arguments. *)
Definition default_parser : Accession2TaxidParser :=
  {| acc_file := None; chunk := Some 500; fast := false |}.

(** [not chunk]: [None] and [0] are false values. *)
Definition falsy (chunk_arg : option Z) : bool :=
  match chunk_arg with
  | None => true
  | Some n => n =? 0
  end.

(** Lines 230-231. *)
Definition effective_chunk (self : Accession2TaxidParser)
    (chunk_arg : option Z) : option Z :=
  if falsy chunk_arg then chunk self else chunk_arg.

(** The local variables of the loop.  In fast mode [accessions] is never
    bound nor read; the model leaves it empty. *)
Record locals : Type := {
  entries : list AccessionRecord;
  counter : Z;
  accessions : gset string
}.

(** Lines 249-254 (the same as 256-261) and 262-265: the entry is appended
    and counted; when the counter reaches the chunk size the batch is
    yielded and a new one is started. *)
Definition append_entry (chunk_size : option Z) (st : locals)
    (acc tax : string) (accessions' : gset string)
  : option (list AccessionRecord) * locals :=
  let entries' := entries st ++ [{| accession := acc; taxid := tax |}] in
  let counter' := counter st + 1 in
  if bool_decide (chunk_size = Some counter') then
    (Some entries',
     {| entries := []; counter := 0; accessions := accessions' |})
  else
    (None,
     {| entries := entries'; counter := counter'; accessions := accessions' |}).

(** Lines 236-265: one turn of the loop; the first component is the batch
    yielded during the turn, if any.  A [continue] leaves the turn before
    the test of the counter. *)
Definition row (self : Accession2TaxidParser) (store : Store)
    (taxids : gset string) (chunk_size : option Z) (st : locals)
    (line : string) : res (option (list AccessionRecord) * locals) :=
  line_list ← Str.split Str.TAB <$> (Str.rstrip Str.NL <$> decode line);
  tax ← item line_list 2;
  if decide (tax ∉ taxids) then Ok (None, st)
  else
    acc ← item line_list 0;
    if negb (fast self) then
      if decide (acc ∈ accessions st) then Ok (None, st)
      else if accessionExists store acc
      then Ok (append_entry chunk_size st acc tax (accessions st))
      else Ok (append_entry chunk_size st acc tax ({[acc]} ∪ accessions st))
    else Ok (append_entry chunk_size st acc tax (accessions st)).

(** What a generator has done when it stops: the batches it yielded, its
    local variables, and how it stopped. *)
Fixpoint rows (self : Accession2TaxidParser) (store : Store)
    (taxids : gset string) (chunk_size : option Z) (st : locals)
    (lines : list string)
  : list (list AccessionRecord) * locals * res () :=
  match lines with
  | [] => ([], st, Ok ())
  | line :: lines' =>
      match row self store taxids chunk_size st line with
      | Raise e => ([], st, Raise e)
      | Ok (yielded, st') =>
          let '(batches, st'', r) :=
            rows self store taxids chunk_size st' lines' in
          (option_list yielded ++ batches, st'', r)
      end
  end.

(** [f.readline()] drops a line when there is one. *)
Definition readline (lines : list string) : list string := tail lines.

Record generated : Type := {
  stderr : list string;
  batches : list (list AccessionRecord);
  seen : gset string;
  stopped : res ()
}.

(** Lines 218-219 and 226. *)
Definition start : locals :=
  {| entries := []; counter := 0; accessions := ∅ |}.

Definition accession2taxid (self : Accession2TaxidParser) (fs : filesystem)
    (store : Store) (acc2taxid_arg : option string) (chunk_arg : option Z)
  : generated :=
  let taxids := knownTaxonomicIds store in
  let acc2taxid :=
    if acc2taxid_arg is None then acc_file self else acc2taxid_arg in
  match check_file fs acc2taxid with
  | (err, Raise e) =>
      {| stderr := err; batches := []; seen := ∅; stopped := Raise e |}
  | (err, Ok _) =>
      let chunk_size := effective_chunk self chunk_arg in
      match open fs acc2taxid with
      | Raise e =>
          {| stderr := err; batches := []; seen := ∅; stopped := Raise e |}
      | Ok f =>
          match rows self store taxids chunk_size start (readline f) with
          | (yielded, st', Raise e) =>
              {| stderr := err; batches := yielded; seen := accessions st';
                 stopped := Raise e |}
          | (yielded, st', Ok _) =>
              {| stderr := err;
                 batches :=
                   yielded ++ (if bool_decide (entries st' ≠ [])
                               then [entries st'] else []);
                 seen := accessions st';
                 stopped := Ok () |}
          end
      end
  end.

(** The method called with its default arguments where the call site gives
    none: [acc2taxid=None, chunk=500]. *)
Definition accession2taxid_call (self : Accession2TaxidParser)
    (fs : filesystem) (store : Store) (acc2taxid_arg : option (option string))
    (chunk_arg : option (option Z)) : generated :=
  accession2taxid self fs store (default None acc2taxid_arg)
    (default (Some 500) chunk_arg).

Definition set_accession_file (self : Accession2TaxidParser) (fs : filesystem)
    (acc_file_arg : option string) : Accession2TaxidParser * M bool :=
  let checked :=
    _ ← (if acc_file_arg is None
         then fatal (Some "Please provide an accession file to set")
         else mret ());
    check_file fs acc_file_arg in
  match checked with
  | (err, Ok _) =>
      ({| acc_file := acc_file_arg; chunk := chunk self; fast := fast self |},
       (err, Ok true))
  | (err, Raise e) => (self, (err, Raise e))
  end.

(** ** Notions the statements use *)

Definition is_regular_file (fs : filesystem) (p : string) : Prop :=
  ∃ lines, fs !! p = Some (RegularFile lines).

(** The taxonomic id of a line of nodes.dmp or names.dmp: column 0 without
    its tabs. *)
Definition row_id (line : string) : string :=
  Str.strip Str.TAB (hd "" (Str.split Str.PIPE line)).

(** The path a call uses: the argument, or the stored one. *)
Definition resolve (arg stored : option string) : option string :=
  if arg is None then stored else arg.

(** The record a line of nodes.dmp gives, when it gives one. *)
Definition from_nodes_line (ncbi_ids : gset string) (line : string)
    (d : dict) : Prop :=
  (row_id line ∉ ncbi_ids) ∧ nodes_row ncbi_ids [] line = Ok [d] ∧
  ∃ parent level,
    d = dict_of [("ncbi_taxid", row_id line); ("parent_taxid", parent);
                 ("tax_name", ""); ("lineage_level", level)].

Definition from_names_line (ncbi_ids : gset string) (line : string)
    (d : dict) : Prop :=
  (row_id line ∉ ncbi_ids) ∧ names_row ncbi_ids [] line = Ok [d] ∧
  ∃ name, d = dict_of [("ncbi_taxid", row_id line); ("tax_name", name)].

(** The accession and the taxonomic id of a line of the accession file
    that decodes and has at least three columns. *)
Definition parsed (line : string) : option (string * string) :=
  match decode line with
  | Ok s =>
      match Str.split Str.TAB (Str.rstrip Str.NL s) with
      | acc :: _ :: tax :: _ => Some (acc, tax)
      | _ => None
      end
  | Raise _ => None
  end.

Definition well_formed (line : string) : Prop := is_Some (parsed line).

#[global] Instance well_formed_dec (line : string) :
  Decision (well_formed line).
Proof. unfold well_formed. apply _. Defined.

(** The filter of the stream, without the batching: the record a line
    contributes and the accessions seen after it.  A line is kept when its
    taxonomic id is known and, in default mode, its accession has not been
    seen in this pass; a kept accession that the store does not have is
    added to the accessions seen. *)
Definition keep (self : Accession2TaxidParser) (store : Store)
    (taxids seen_so_far : gset string) (line : string)
  : option (AccessionRecord * gset string) :=
  match parsed line with
  | Some (acc, tax) =>
      if decide (tax ∈ taxids) then
        if fast self then
          Some ({| accession := acc; taxid := tax |}, seen_so_far)
        else if decide (acc ∈ seen_so_far) then None
        else Some ({| accession := acc; taxid := tax |},
                   if accessionExists store acc then seen_so_far
                   else {[acc]} ∪ seen_so_far)
      else None
  | None => None
  end.

(** The eligible records of the lines, in the order of the lines. *)
Fixpoint eligible_records (self : Accession2TaxidParser) (store : Store)
    (taxids seen_so_far : gset string) (lines : list string)
  : list AccessionRecord :=
  match lines with
  | [] => []
  | line :: lines' =>
      match keep self store taxids seen_so_far line with
      | Some (r, seen') => r :: eligible_records self store taxids seen' lines'
      | None => eligible_records self store taxids seen_so_far lines'
      end
  end.

(** A line that carries accession [a] with a known taxonomic id. *)
Definition eligible_for (taxids : gset string) (a : string) (line : string)
  : bool :=
  match parsed line with
  | Some (acc, tax) => bool_decide (acc = a) && bool_decide (tax ∈ taxids)
  | None => false
  end.

Definition lines_for (taxids : gset string) (a : string)
    (lines : list string) : nat :=
  length (filter (λ line, eligible_for taxids a line = true) lines).

(** How many times accession [a] is emitted. *)
Definition emitted (a : string) (bs : list (list AccessionRecord)) : nat :=
  length (filter (λ r, accession r = a) (concat bs)).

(** The last step of the generator: the entries left are yielded when there
    are some and the loop has not raised. *)
Definition left_over (out : list (list AccessionRecord) * locals * res ())
  : list (list AccessionRecord) :=
  match out.2 with
  | Ok _ => if bool_decide (entries out.1.2 ≠ []) then [entries out.1.2] else []
  | Raise _ => []
  end.

(** ** Sample inputs *)

Module Demo.

(** A line of a dump file: columns separated by tab, bar, tab. *)
Definition dmp (columns : list string) : string :=
  String.concat (String Str.TAB (String Str.PIPE (String Str.TAB "")))
    columns
  +:+ String Str.TAB (String Str.PIPE (String Str.NL "")).

(** A line of the accession file: columns separated by tabs. *)
Definition tsv (columns : list string) : string :=
  String.concat (String Str.TAB "") columns +:+ String Str.NL "".

Definition header : string :=
  tsv ["accession"; "accession.version"; "taxid"; "gi"].

Definition A1 : AccessionRecord := {| accession := "A1"; taxid := "9606" |}.
Definition A2 : AccessionRecord := {| accession := "A2"; taxid := "9606" |}.
Definition A3 : AccessionRecord := {| accession := "A3"; taxid := "9606" |}.

Definition nodes_lines : list string :=
  [dmp ["9606"; "9605"; "species"; "HS"]; dmp ["9605"; "9604"; "genus"; ""]].

Definition names_lines : list string :=
  [dmp ["9606"; "Homo sapiens"; ""; "scientific name"];
   dmp ["9606"; "human"; ""; "genbank common name"];
   dmp ["9605"; "Homo"; ""; "scientific name"]].

(** What the two files give when no taxon is known. *)
Definition nodes_data : list dict :=
  [dict_of [("ncbi_taxid", "9606"); ("parent_taxid", "9605");
            ("tax_name", ""); ("lineage_level", "species")];
   dict_of [("ncbi_taxid", "9605"); ("parent_taxid", "9604");
            ("tax_name", ""); ("lineage_level", "genus")]].

Definition names_data : list dict :=
  [dict_of [("ncbi_taxid", "9606"); ("tax_name", "Homo sapiens")];
   dict_of [("ncbi_taxid", "9605"); ("tax_name", "Homo")]].

Definition twice_lines : list string :=
  [header; tsv ["A1"; "A1.1"; "9606"; "11"];
   tsv ["A1"; "A1.1"; "9606"; "11"]; tsv ["A9"; "A9.1"; "555"; "99"]].

(** The last line has one column. *)
Definition cut_lines : list string :=
  [header; tsv ["A1"; "A1.1"; "9606"; "11"];
   tsv ["A1"; "A1.1"; "9606"; "11"]; tsv ["A2"]].

Definition three_lines : list string :=
  [header; tsv ["A1"; "A1.1"; "9606"; "11"];
   tsv ["A2"; "A2.1"; "9606"; "12"]; tsv ["A3"; "A3.1"; "9606"; "13"]].

Definition fs : filesystem :=
  {[ "nodes.dmp" := RegularFile nodes_lines;
     "names.dmp" := RegularFile names_lines;
     "twice.gz" := RegularFile twice_lines;
     "cut.gz" := RegularFile cut_lines;
     "three.gz" := RegularFile three_lines;
     "taxdump" := Directory ]}.

(** A store without taxa, one with taxon 9606 and no accession, and one
    with taxon 9606 and accession A1. *)
Definition empty_store : Store :=
  {| knownTaxonomicIds := ∅; accessionExists := λ _, false |}.

Definition taxa_store : Store :=
  {| knownTaxonomicIds := {["9606"]}; accessionExists := λ _, false |}.

Definition full_store : Store :=
  {| knownTaxonomicIds := {["9606"]};
     accessionExists := λ a, bool_decide (a = "A1") |}.

Definition default_mode (path : string) (size : Z) : Accession2TaxidParser :=
  {| acc_file := Some path; chunk := Some size; fast := false |}.

Definition fast_mode (path : string) (size : Z) : Accession2TaxidParser :=
  {| acc_file := Some path; chunk := Some size; fast := true |}.

End Demo.

(** ** Notions of the further properties *)

(** Whether the character [c] occurs in [s]. *)
Fixpoint occurs (c : ascii) (s : string) : bool :=
  match s with
  | EmptyString => false
  | String a s' => Ascii.eqb a c || occurs c s'
  end.

(** The record lines 100-105 build from a line of nodes.dmp with three
    columns or more, and the one lines 119-122 build from a line of
    names.dmp with two columns or more. *)
Definition nodes_record (line : string) : dict :=
  let line_list := Str.split Str.PIPE line in
  dict_of [("ncbi_taxid", row_id line);
           ("parent_taxid", Str.strip Str.TAB (default "" (line_list !! 1%nat)));
           ("tax_name", "");
           ("lineage_level", Str.strip Str.TAB (default "" (line_list !! 2%nat)))].

Definition names_record (line : string) : dict :=
  let line_list := Str.split Str.PIPE line in
  dict_of [("ncbi_taxid", row_id line);
           ("tax_name", Str.strip Str.TAB (default "" (line_list !! 1%nat)))].

(** The lines of names.dmp that [taxdump] reads a name from. *)
Definition names_kept (ncbi_ids : gset string) (line : string) : Prop :=
  Str.contains "scientific name" line = true ∧ row_id line ∉ ncbi_ids.

#[global] Instance names_kept_dec (ncbi_ids : gset string) (line : string) :
  Decision (names_kept ncbi_ids line).
Proof. unfold names_kept. apply _. Defined.

(** The lines on which the loops of [taxdump] do not raise: a line that is
    skipped, or one with the columns that are read. *)
Definition nodes_line_ok (ncbi_ids : gset string) (line : string) : Prop :=
  row_id line ∈ ncbi_ids ∨ (3 ≤ length (Str.split Str.PIPE line))%nat.

Definition names_line_ok (ncbi_ids : gset string) (line : string) : Prop :=
  names_kept ncbi_ids line → (2 ≤ length (Str.split Str.PIPE line))%nat.

#[global] Instance nodes_line_ok_dec (ncbi_ids : gset string) (line : string) :
  Decision (nodes_line_ok ncbi_ids line).
Proof. unfold nodes_line_ok. apply _. Defined.

#[global] Instance names_line_ok_dec (ncbi_ids : gset string) (line : string) :
  Decision (names_line_ok ncbi_ids line).
Proof. unfold names_line_ok. apply _. Defined.

(** A column of a dump line: no tab and no bar in it. *)
Definition plain (s : string) : Prop :=
  occurs Str.TAB s = false ∧ occurs Str.PIPE s = false.

(** The separator of the dump files: tab, bar, tab. *)
Definition bar : string :=
  String Str.TAB (String Str.PIPE (String Str.TAB "")).

(** A line of nodes.dmp that starts with the three columns read, and a line
    of names.dmp that starts with the two columns read; [rest] is what
    follows the bar that closes them. *)
Definition nodes_line (id parent rank rest : string) : string :=
  id +:+ bar +:+ parent +:+ bar +:+ rank
  +:+ String Str.TAB (String Str.PIPE rest).

Definition names_line (id name rest : string) : string :=
  id +:+ bar +:+ name +:+ String Str.TAB (String Str.PIPE rest).

(** A line of the accession file that starts with three columns. *)
Definition accession_line (acc version tax rest : string) : string :=
  acc +:+ String Str.TAB (version +:+ String Str.TAB (tax +:+ rest)).

(** The accessions of the lines that decode, have three columns and a
    known taxonomic id, in the order of the lines. *)
Definition known_accessions (taxids : gset string) (lines : list string)
  : list string :=
  omap (λ line,
          match parsed line with
          | Some (acc, tax) => if decide (tax ∈ taxids) then Some acc else None
          | None => None
          end) lines.

(** Default mode skips no line with a known taxonomic id: none of them
    carries an accession seen before it. *)
Fixpoint unskipped (store : Store) (taxids seen_so_far : gset string)
    (lines : list string) : Prop :=
  match lines with
  | [] => True
  | line :: lines' =>
      match parsed line with
      | Some (acc, tax) =>
          if decide (tax ∈ taxids) then
            (acc ∉ seen_so_far) ∧
            unskipped store taxids
              (if accessionExists store acc then seen_so_far
               else {[acc]} ∪ seen_so_far) lines'
          else unskipped store taxids seen_so_far lines'
      | None => True
      end
  end.

(** A line that decodes, has three columns and an unknown taxonomic id. *)
Definition ignored (taxids : gset string) (line : string) : Prop :=
  match parsed line with
  | Some (_, tax) => tax ∉ taxids
  | None => False
  end.

#[global] Instance ignored_dec (taxids : gset string) (line : string) :
  Decision (ignored taxids line).
Proof. unfold ignored. destruct (parsed line) as [[? ?]|]; apply _. Defined.

(** The two ways a call relates to stderr: it exits through [fatal], with
    one line that starts with the tag and [SystemExit] with status 1; or it
    prints nothing and does not exit. *)
Definition exits_through_fatal {A} (err : list string) (r : res A) : Prop :=
  ∃ msg, err = ["[FATAL] " +:+ msg] ∧ r = Raise (SystemExit 1).

Definition silent {A} (err : list string) (r : res A) : Prop :=
  err = [] ∧ ∀ status, r ≠ Raise (SystemExit status).

(** Further sample inputs: a nodes file whose line has two columns, and an
    accession file without a line. *)
Module Sample.

Definition short_line : string := "9606|9605".

Definition fs : filesystem :=
  <["short.dmp" := RegularFile [short_line]]>
    (<["empty.gz" := RegularFile []]> Demo.fs).

Definition both (nodes names : string) : TaxaDumpParser :=
  {| nodes_file := Some nodes; names_file := Some names |}.

End Sample.

(** * Properties *)

(** ** Strings and loops *)

Lemma split_cons (sep : ascii) (s : string) :
  ∃ f fs, Str.split sep s = f :: fs.
Proof.
  induction s as [|c s IH]; simpl; [by eauto|].
  destruct (Ascii.eqb c sep); [by eauto|].
  destruct IH as (f & fs & ->). by eauto.
Qed.

Lemma item_0_split (sep : ascii) (s : string) :
  item (Str.split sep s) 0 = Ok (hd "" (Str.split sep s)).
Proof. destruct (split_cons sep s) as (f & fs & ->). done. Qed.

(** What a loop that only appends has appended. *)
Lemma for_each_appends {A B} (body : list B → A → res (list B))
    (P : A → B → Prop) :
  (∀ acc x out, body acc x = Ok out →
     out = acc ∨ ∃ y, out = acc ++ [y] ∧ P x y) →
  ∀ l acc out, for_each body acc l = Ok out →
    ∃ new, out = acc ++ new ∧ Forall (λ y, ∃ x, x ∈ l ∧ P x y) new.
Proof.
  intros Hbody l. induction l as [|x l IH]; simpl; intros acc out Hout.
  - exists []. split; [|by constructor]. rewrite app_nil_r. congruence.
  - destruct (body acc x) as [acc'|] eqn:Hx; [|done].
    destruct (IH _ _ Hout) as (new & -> & Hnew).
    assert (Forall (λ y, ∃ x0, x0 ∈ x :: l ∧ P x0 y) new) as Hnew'.
    { eapply Forall_impl; [exact Hnew|].
      intros y (x0 & ? & ?). exists x0. split; [by right|done]. }
    destruct (Hbody _ _ _ Hx) as [->|(y & -> & Hy)].
    + by exists new.
    + exists (y :: new). split; [by rewrite <- app_assoc|].
      constructor; [|done]. exists x. split; [by left|done].
Qed.

Lemma not_elem_of_add (a x : string) (s : gset string) :
  a ≠ x → a ∉ s → a ∉ {[x]} ∪ s.
Proof.
  intros Hne Hs [Hx|Hx]%elem_of_union; [|done].
  by apply elem_of_singleton in Hx.
Qed.

(** ** check_file and the setters *)

Lemma check_file_Ok (fs : filesystem) (element : option string)
    (err : list string) (b : bool) :
  check_file fs element = (err, Ok b) ↔
  err = [] ∧ b = true ∧ ∃ p, element = Some p ∧ is_regular_file fs p.
Proof.
  unfold check_file, os_path_exists, os_path_isfile, is_regular_file, fatal.
  destruct element as [p|];
    [|split; [done|by intros (_ & _ & q & [=] & _)]].
  destruct (fs !! p) as [[lines| |]|] eqn:Hp; simpl;
    try (rewrite bool_decide_eq_true_2 by eauto; simpl);
    try (rewrite bool_decide_eq_false_2 by (intros [? ?]; done); simpl);
    (split;
     [intros [= <- <-]; eauto 10
     |intros (-> & -> & q & [= <-] & l & Hl); first [done|congruence]]).
Qed.

Lemma check_file_Raise (fs : filesystem) (element : option string)
    (err : list string) (e : exn) :
  check_file fs element = (err, Raise e) → e = SystemExit 1 ∧ ∃ msg, err = [msg].
Proof.
  unfold check_file, fatal. destruct element as [p|].
  - repeat case_match; intros [= <- <-]; eauto.
  - intros [= <- <-]; eauto.
Qed.

(** C6, as the code has it.  [check_file] returns [True], and prints nothing,
    exactly when the path is set and names a regular file.  In each of the
    three other cases it stops through [fatal]: one line on stderr, which
    tells the cases apart, and [SystemExit] with status 1, which does not. *)
Theorem check_file_fatal_exit (fs : filesystem) (element : option string) :
  (check_file fs element = ([], Ok true) ↔
     ∃ p, element = Some p ∧ is_regular_file fs p) ∧
  (element = None →
     check_file fs element =
       (["[FATAL] Please provide an input file to check"],
        Raise (SystemExit 1))) ∧
  (∀ p, element = Some p → fs !! p = None →
     check_file fs element =
       (["[FATAL] " +:+ ("File " +:+ p +:+ " does not exist")],
        Raise (SystemExit 1))) ∧
  (∀ p, element = Some p → is_Some (fs !! p) → ¬ is_regular_file fs p →
     check_file fs element =
       (["[FATAL] " +:+ (p +:+ " is not a file")], Raise (SystemExit 1))).
Proof.
  split; [|split; [|split]].
  - rewrite check_file_Ok. tauto.
  - by intros ->.
  - intros p -> Hp. unfold check_file, os_path_exists. rewrite Hp.
    rewrite bool_decide_eq_false_2; [done|]. by intros [? ?].
  - intros p -> Hp Hreg. unfold check_file, os_path_exists, os_path_isfile.
    rewrite bool_decide_eq_true_2 by done. simpl.
    destruct Hp as [[lines| |] Hp]; rewrite Hp; try done.
    destruct Hreg. by exists lines.
Qed.

Lemma check_file_fatal_exit_witness :
  check_file {["nodes.dmp" := RegularFile []; "taxdump" := Directory]}
    (Some "taxdump") =
  (["[FATAL] taxdump is not a file"], Raise (SystemExit 1)).
Proof.
  apply (proj2 (proj2 (proj2 (check_file_fatal_exit
           {["nodes.dmp" := RegularFile []; "taxdump" := Directory]}
           (Some "taxdump")))) "taxdump");
    [done|exists Directory; by vm_compute|].
  intros [lines Hl]. vm_compute in Hl. discriminate.
Defined.

(** C6, as the claim states it, fails: the unset path, the missing path and
    the directory all end in the same exception, so the caller cannot tell
    three typed errors apart. *)
Lemma check_file_one_exception :
  let fs : filesystem := {["taxdump" := Directory]} in
  (check_file fs None).2 = Raise (SystemExit 1) ∧
  (check_file fs (Some "missing")).2 = Raise (SystemExit 1) ∧
  (check_file fs (Some "taxdump")).2 = Raise (SystemExit 1).
Proof. by vm_compute. Qed.

(** The check a setter makes before it assigns. *)
Lemma setter_check (fs : filesystem) (arg : option string) :
  (_ ← (if arg is None
        then fatal (Some "Please provide an accession file to set")
        else mret ());
   check_file fs arg) =
  match arg with
  | None =>
      (["[FATAL] Please provide an accession file to set"],
       Raise (SystemExit 1))
  | Some _ => check_file fs arg
  end.
Proof.
  destruct arg as [p|]; [|done].
  unfold mbind, M_bind, mret, M_ret. by destruct (check_file fs (Some p)).
Qed.

(** C7.  Each setter assigns only after [check_file] has accepted its
    argument.  When the check returns, the stored path is the argument (the
    other fields are kept) and the setter returns [True]; when it raises, the
    setter raises the same exception and the parser is unchanged. *)
Theorem setters_validate_before_assigning (fs : filesystem)
    (arg : option string) :
  ((check_file fs arg).2 = Ok true →
   (∀ self, set_nodes_file self fs arg =
      ({| nodes_file := arg; names_file := names_file self |}, ([], Ok true))) ∧
   (∀ self, set_names_file self fs arg =
      ({| nodes_file := nodes_file self; names_file := arg |}, ([], Ok true))) ∧
   (∀ self, set_accession_file self fs arg =
      ({| acc_file := arg; chunk := chunk self; fast := fast self |},
       ([], Ok true)))) ∧
  (∀ e, (check_file fs arg).2 = Raise e →
   (∀ self, (set_nodes_file self fs arg).1 = self ∧
            (set_nodes_file self fs arg).2.2 = Raise e) ∧
   (∀ self, (set_names_file self fs arg).1 = self ∧
            (set_names_file self fs arg).2.2 = Raise e) ∧
   (∀ self, (set_accession_file self fs arg).1 = self ∧
            (set_accession_file self fs arg).2.2 = Raise e)).
Proof.
  split.
  - intros Hok. destruct (check_file fs arg) as [err r] eqn:Hc.
    simpl in Hok. subst r. pose proof Hc as Hc'.
    apply check_file_Ok in Hc' as (-> & _ & p & -> & _).
    unfold set_nodes_file, set_names_file, set_accession_file.
    rewrite setter_check, Hc. done.
  - intros e He. destruct (check_file fs arg) as [err r] eqn:Hc.
    simpl in He. subst r.
    destruct (check_file_Raise _ _ _ _ Hc) as [-> _].
    unfold set_nodes_file, set_names_file, set_accession_file.
    rewrite setter_check. destruct arg as [p|]; [by rewrite Hc|done].
Qed.

Lemma setters_validate_before_assigning_witness :
  set_nodes_file {| nodes_file := None; names_file := Some "names.dmp" |}
    {["nodes.dmp" := RegularFile []]} (Some "nodes.dmp") =
  ({| nodes_file := Some "nodes.dmp"; names_file := Some "names.dmp" |},
   ([], Ok true)).
Proof.
  apply (proj1 (setters_validate_before_assigning
                  {["nodes.dmp" := RegularFile []]} (Some "nodes.dmp"))).
  by vm_compute.
Defined.

(** ** taxdump *)

Lemma dict_of_nodes_lookup (id parent level : string) :
  let d := dict_of [("ncbi_taxid", id); ("parent_taxid", parent);
                    ("tax_name", ""); ("lineage_level", level)] in
  d !! "ncbi_taxid" = Some id ∧ d !! "parent_taxid" = Some parent ∧
  d !! "tax_name" = Some "" ∧ d !! "lineage_level" = Some level.
Proof. unfold dict_of; simpl. by rewrite !lookup_insert. Qed.

Lemma dict_of_names_lookup (id name : string) :
  let d := dict_of [("ncbi_taxid", id); ("tax_name", name)] in
  d !! "ncbi_taxid" = Some id ∧ d !! "tax_name" = Some name ∧
  d !! "parent_taxid" = None ∧ d !! "lineage_level" = None.
Proof. unfold dict_of; simpl. by rewrite !lookup_insert. Qed.

Lemma nodes_row_appends (ncbi_ids : gset string) (acc : list dict)
    (line : string) (out : list dict) :
  nodes_row ncbi_ids acc line = Ok out →
  out = acc ∨ ∃ d, out = acc ++ [d] ∧ from_nodes_line ncbi_ids line d.
Proof.
  unfold from_nodes_line, nodes_row, row_id.
  rewrite !item_0_split. simpl.
  destruct (decide (_ ∈ ncbi_ids)) as [Hin|Hin]; [left; congruence|].
  destruct (item _ 1) as [parent|]; [|done]. simpl.
  destruct (item _ 2) as [level|]; [|done]. simpl.
  intros [= <-]. right. eexists. split; [done|]. eauto.
Qed.

Lemma names_row_appends (ncbi_ids : gset string) (acc : list dict)
    (line : string) (out : list dict) :
  names_row ncbi_ids acc line = Ok out →
  out = acc ∨ ∃ d, out = acc ++ [d] ∧ from_names_line ncbi_ids line d.
Proof.
  unfold from_names_line, names_row, row_id.
  destruct (Str.contains _ line); [|left; congruence].
  rewrite !item_0_split. simpl.
  destruct (decide (_ ∈ ncbi_ids)) as [Hin|Hin]; [left; congruence|].
  destruct (item _ 1) as [name|]; [|done]. simpl.
  intros [= <-]. right. eexists. split; [done|]. eauto.
Qed.

Lemma parse_nodes_from_lines (ncbi_ids : gset string) (lines : list string)
    (nodes_data : list dict) :
  parse_nodes ncbi_ids lines = Ok nodes_data →
  Forall (λ d, ∃ line, line ∈ lines ∧ from_nodes_line ncbi_ids line d)
    nodes_data.
Proof.
  intros H. eapply for_each_appends in H as (new & -> & Hnew); [done|].
  apply nodes_row_appends.
Qed.

Lemma parse_names_from_lines (ncbi_ids : gset string) (lines : list string)
    (names_data : list dict) :
  parse_names ncbi_ids lines = Ok names_data →
  Forall (λ d, ∃ line, line ∈ lines ∧ from_names_line ncbi_ids line d)
    names_data.
Proof.
  intros H. eapply for_each_appends in H as (new & -> & Hnew); [done|].
  apply names_row_appends.
Qed.

Lemma merge_length (nodes_data names_data : list dict) :
  length (merge nodes_data names_data) =
  (length nodes_data `min` length names_data)%nat.
Proof. unfold merge. by rewrite length_fmap, length_zip. Qed.

Lemma merge_lookup (nodes_data names_data : list dict) (i : nat) :
  merge nodes_data names_data !! i =
  nodes ← nodes_data !! i; names ← names_data !! i; Some (names ∪ nodes).
Proof.
  unfold merge. rewrite list_lookup_fmap, lookup_zip_with.
  destruct (nodes_data !! i); simpl; [|done].
  by destruct (names_data !! i).
Qed.

Lemma taxdump_returns (self : TaxaDumpParser) (fs : filesystem)
    (store : Store) (nodes_arg names_arg : option string)
    (nodes_lines names_lines : list string) (nodes_data names_data : list dict) :
  open fs (resolve nodes_arg (nodes_file self)) = Ok nodes_lines →
  open fs (resolve names_arg (names_file self)) = Ok names_lines →
  parse_nodes (knownTaxonomicIds store) nodes_lines = Ok nodes_data →
  parse_names (knownTaxonomicIds store) names_lines = Ok names_data →
  taxdump self fs store nodes_arg names_arg =
    ([], Ok (merge nodes_data names_data)).
Proof.
  unfold taxdump, resolve. intros Hn Hm Hpn Hpm.
  assert (∀ p lines, open fs p = Ok lines → check_file fs p = ([], Ok true))
    as Hcheck.
  { intros p lines Hp. apply check_file_Ok. split; [done|]. split; [done|].
    unfold open in Hp. destruct p as [p|]; [|done]. exists p. split; [done|].
    destruct (fs !! p) as [[l| |]|] eqn:E; try done. by exists l. }
  rewrite (Hcheck _ _ Hn), (Hcheck _ _ Hm), Hn, Hm. simpl.
  unfold mbind, M_bind, lift. simpl. by rewrite Hpn, Hpm.
Qed.

(** C1.  When both files have been read into the nodes-sequence and the
    names-sequence, [taxdump] returns their merge by position: as many
    records as the shorter sequence has, record [i] is
    [{**nodes_data[i], **names_data[i]}], its taxonomic id and name are those
    of the names row, its parent id and rank those of the nodes row. *)
Theorem taxdump_merges_by_position (self : TaxaDumpParser) (fs : filesystem)
    (store : Store) (nodes_arg names_arg : option string)
    (nodes_lines names_lines : list string) (nodes_data names_data : list dict) :
  open fs (resolve nodes_arg (nodes_file self)) = Ok nodes_lines →
  open fs (resolve names_arg (names_file self)) = Ok names_lines →
  parse_nodes (knownTaxonomicIds store) nodes_lines = Ok nodes_data →
  parse_names (knownTaxonomicIds store) names_lines = Ok names_data →
  ∃ merged,
    taxdump self fs store nodes_arg names_arg = ([], Ok merged) ∧
    length merged = (length nodes_data `min` length names_data)%nat ∧
    ∀ i, (i < length nodes_data `min` length names_data)%nat →
      ∃ nodes names id name parent level,
        nodes_data !! i = Some nodes ∧ names_data !! i = Some names ∧
        merged !! i = Some (names ∪ nodes) ∧
        names !! "ncbi_taxid" = Some id ∧ names !! "tax_name" = Some name ∧
        nodes !! "parent_taxid" = Some parent ∧
        nodes !! "lineage_level" = Some level ∧
        names ∪ nodes =
          dict_of [("ncbi_taxid", id); ("parent_taxid", parent);
                   ("tax_name", name); ("lineage_level", level)].
Proof.
  intros Hn Hm Hpn Hpm. exists (merge nodes_data names_data).
  split; [by eapply taxdump_returns|]. split; [apply merge_length|].
  intros i Hi.
  destruct (lookup_lt_is_Some_2 nodes_data i) as [nodes Hnodes]; [lia|].
  destruct (lookup_lt_is_Some_2 names_data i) as [names Hnames]; [lia|].
  apply parse_nodes_from_lines in Hpn. apply parse_names_from_lines in Hpm.
  rewrite Forall_lookup in Hpn. rewrite Forall_lookup in Hpm.
  destruct (Hpn _ _ Hnodes) as (nl & _ & _ & _ & parent & level & ->).
  destruct (Hpm _ _ Hnames) as (ml & _ & _ & _ & name & ->).
  destruct (dict_of_nodes_lookup (row_id nl) parent level) as (N1 & N2 & N3 & N4).
  destruct (dict_of_names_lookup (row_id ml) name) as (M1 & M2 & M3 & M4).
  eexists _, _, (row_id ml), name, parent, level.
  split; [done|]. split; [done|].
  split; [by rewrite merge_lookup, Hnodes, Hnames|].
  do 4 (split; [done|]).
  apply map_eq. intros k. rewrite lookup_union.
  unfold dict_of; simpl. rewrite !lookup_insert.
  repeat case_decide; by subst.
Qed.

(** ** accession2taxid: one turn of the loop *)

Section Row.
Context (self : Accession2TaxidParser) (store : Store).
Context (taxids : gset string) (chunk_size : option Z).

Lemma row_parsed (st : locals) (line acc tax : string) :
  parsed line = Some (acc, tax) →
  row self store taxids chunk_size st line =
  Ok match keep self store taxids (accessions st) line with
     | Some (r, seen') =>
         append_entry chunk_size st (accession r) (taxid r) seen'
     | None => (None, st)
     end.
Proof.
  unfold keep, row, parsed. destruct (decode line) as [s|]; [|done]. simpl.
  destruct (Str.split Str.TAB (Str.rstrip Str.NL s))
    as [|a [|b [|t l]]]; try done.
  intros [= -> ->]. unfold item; simpl.
  destruct (decide (tax ∈ taxids)), (decide (tax ∉ taxids)); try done.
  destruct (fast self); simpl; [done|].
  destruct (decide (acc ∈ accessions st)); [done|].
  by destruct (accessionExists store acc).
Qed.

Lemma row_malformed (st : locals) (line : string) :
  parsed line = None →
  row self store taxids chunk_size st line = Raise UnicodeDecodeError ∨
  row self store taxids chunk_size st line = Raise IndexError.
Proof.
  unfold row, parsed, decode.
  destruct (Str.utf8_valid line); [|by left]. simpl.
  destruct (Str.split Str.TAB (Str.rstrip Str.NL line))
    as [|a [|b [|t l]]]; try done; by right.
Qed.

Lemma row_Ok (st st' : locals) (line : string)
    (y : option (list AccessionRecord)) :
  row self store taxids chunk_size st line = Ok (y, st') →
  well_formed line ∧
  match keep self store taxids (accessions st) line with
  | Some (r, seen') =>
      (y, st') = append_entry chunk_size st (accession r) (taxid r) seen'
  | None => y = None ∧ st' = st
  end.
Proof.
  unfold well_formed. destruct (parsed line) as [[acc tax]|] eqn:Hp.
  - rewrite (row_parsed _ _ _ _ Hp). intros [= H]. split; [by eauto|].
    destruct (keep _ _ _ _ _) as [[r seen']|]; [done|].
    by injection H as <- <-.
  - destruct (row_malformed st line Hp) as [-> | ->]; done.
Qed.

Lemma keep_Some (seen_so_far seen' : gset string) (line : string)
    (r : AccessionRecord) :
  keep self store taxids seen_so_far line = Some (r, seen') →
  parsed line = Some (accession r, taxid r) ∧ taxid r ∈ taxids ∧
  (fast self = false → accession r ∉ seen_so_far) ∧
  seen' = (if negb (fast self) && negb (accessionExists store (accession r))
           then {[accession r]} ∪ seen_so_far else seen_so_far).
Proof.
  unfold keep. destruct (parsed line) as [[acc tax]|]; [|done].
  destruct (decide (tax ∈ taxids)); [|done].
  destruct (fast self); simpl.
  - by intros [= <- <-].
  - destruct (decide (acc ∈ seen_so_far)); [done|].
    intros [= <- <-]. simpl. by destruct (accessionExists store acc).
Qed.

(** A property of the local variables that every turn keeps, and a
    property of the batches that holds of each batch yielded under it. *)
Lemma rows_invariant (I : locals → Prop)
    (B : list AccessionRecord → Prop) :
  (∀ st line y st', I st →
     row self store taxids chunk_size st line = Ok (y, st') →
     I st' ∧ ∀ b, y = Some b → B b) →
  ∀ lines st, I st →
    Forall B (rows self store taxids chunk_size st lines).1.1 ∧
    I (rows self store taxids chunk_size st lines).1.2.
Proof.
  intros Hrow lines. induction lines as [|line lines IH]; intros st Hst.
  - simpl. by split.
  - simpl. destruct (row _ _ _ _ st line) as [[y st1]|] eqn:Hr;
      [|simpl; by split].
    destruct (Hrow _ _ _ _ Hst Hr) as [Hst1 Hy].
    specialize (IH _ Hst1).
    destruct (rows _ _ _ _ st1 lines) as [[bs st2] r]. simpl in *.
    destruct IH as [IH1 IH2]. split; [|done].
    destruct y as [b|]; simpl; [|done]. constructor; [by apply Hy|done].
Qed.

End Row.

(** ** accession2taxid: the whole loop *)

Section Rows.
Context (self : Accession2TaxidParser) (store : Store).
Context (taxids : gset string) (chunk_size : option Z).

#[local] Abbreviation rows_of := (rows self store taxids chunk_size).
#[local] Abbreviation eligible_from := (eligible_records self store taxids).

(** The batches yielded, then the entries not yet yielded, are the eligible
    records up to the line where the loop stops. *)
Lemma rows_eligible (lines : list string) : ∀ st : locals,
  ∃ lost,
    entries st ++ eligible_from (accessions st) lines =
      concat (rows_of st lines).1.1 ++ entries (rows_of st lines).1.2 ++ lost ∧
    ((rows_of st lines).2 = Ok () → lost = []).
Proof.
  induction lines as [|line lines IH]; intros st; simpl.
  - exists []. by rewrite !app_nil_r.
  - destruct (row _ _ _ _ st line) as [[y st1]|] eqn:Hr; simpl.
    2:{ eexists. split; [reflexivity|done]. }
    apply row_Ok in Hr as [_ Hr]. specialize (IH st1).
    destruct (rows_of st1 lines) as [[bs st2] r]. simpl in *.
    destruct IH as (lost & IH & Hlost). exists lost. split; [|done].
    destruct (keep _ _ _ _ _) as [[[acc tax] seen']|]; simpl in *.
    + unfold append_entry in Hr. case_bool_decide; injection Hr as -> ->;
        simpl in *.
      * rewrite <- !app_assoc. simpl. by rewrite IH.
      * by rewrite <- IH, <- app_assoc.
    + by destruct Hr as [-> ->].
Qed.

Lemma rows_well_formed (lines : list string) : ∀ st : locals,
  Forall well_formed lines → (rows_of st lines).2 = Ok ().
Proof.
  induction lines as [|line lines IH]; intros st Hwf; simpl; [done|].
  apply Forall_cons in Hwf as [[[acc tax] Hp] Hwf].
  rewrite (row_parsed _ _ _ _ _ _ _ _ Hp).
  destruct (match keep _ _ _ _ _ with Some _ => _ | None => _ end)
    as [y st1].
  specialize (IH st1 Hwf). by destruct (rows_of st1 lines) as [[bs st2] r].
Qed.

(** Every batch yielded inside the loop has the chunk size, and fewer
    entries than that are left when the loop stops. *)
Lemma rows_sizes (c : Z) (lines : list string) (st : locals) :
  chunk_size = Some c → 1 ≤ c →
  counter st = Z.of_nat (length (entries st)) → counter st < c →
  Forall (λ b, Z.of_nat (length b) = c) (rows_of st lines).1.1 ∧
  Z.of_nat (length (entries (rows_of st lines).1.2)) < c.
Proof.
  intros -> Hc Hcount Hlt.
  destruct (rows_invariant self store taxids (Some c)
    (λ st, counter st = Z.of_nat (length (entries st)) ∧ counter st < c)
    (λ b, Z.of_nat (length b) = c)) with (lines := lines) (st := st)
    as [HB [HI1 HI2]]; [|done|split; [done|by rewrite <- HI1]].
  clear. intros st line y st' [Hcount Hlt] Hr.
  apply row_Ok in Hr as [_ Hr].
  destruct (keep _ _ _ _ _) as [[r seen']|].
  - unfold append_entry in Hr. case_bool_decide as Hy;
      injection Hr as -> ->; simpl.
    + injection Hy as ->. split; [lia|]. intros b [= <-].
      rewrite length_app. simpl. lia.
    + rewrite length_app. simpl.
      assert (c ≠ counter st + 1) by congruence.
      split; [lia|done].
  - destruct Hr as [-> ->]. by split.
Qed.

(** Every entry has a known taxonomic id. *)
Lemma rows_known (lines : list string) (st : locals) :
  Forall (λ r, taxid r ∈ taxids) (entries st) →
  Forall (Forall (λ r, taxid r ∈ taxids)) (rows_of st lines).1.1 ∧
  Forall (λ r, taxid r ∈ taxids) (entries (rows_of st lines).1.2).
Proof.
  apply (rows_invariant self store taxids chunk_size
    (λ st, Forall (λ r, taxid r ∈ taxids) (entries st))
    (Forall (λ r, taxid r ∈ taxids))).
  clear. intros st line y st' Hst Hr. apply row_Ok in Hr as [_ Hr].
  destruct (keep _ _ _ _ _) as [[r seen']|] eqn:Hk.
  - apply keep_Some in Hk as (_ & Hknown & _).
    assert (Forall (λ r, taxid r ∈ taxids)
              (entries st ++ [{| accession := accession r; taxid := taxid r |}])).
    { apply Forall_app. split; [done|]. by constructor. }
    unfold append_entry in Hr. case_bool_decide; injection Hr as -> ->;
      simpl; split; try done; by intros b [= <-].
  - destruct Hr as [-> ->]. by split.
Qed.

(** An accession that the store has is never added to the accessions
    seen. *)
Lemma rows_seen (a : string) (lines : list string) (st : locals) :
  accessionExists store a = true →
  a ∉ accessions st → a ∉ accessions (rows_of st lines).1.2.
Proof.
  intros Ha.
  apply (rows_invariant self store taxids chunk_size
    (λ st, a ∉ accessions st) (λ _, True)).
  clear -Ha. intros st line y st' Hst Hr. apply row_Ok in Hr as [_ Hr].
  destruct (keep _ _ _ _ _) as [[r seen']|] eqn:Hk.
  - apply keep_Some in Hk as (_ & _ & _ & ->).
    assert (a ∉ (if negb (fast self) && negb (accessionExists store (accession r))
                 then {[accession r]} ∪ accessions st else accessions st)).
    { destruct (fast self); simpl; [done|].
      destruct (accessionExists store (accession r)) eqn:E; simpl; [done|].
      apply not_elem_of_add; [congruence|done]. }
    unfold append_entry in Hr. by case_bool_decide; injection Hr as -> ->.
  - by destruct Hr as [-> ->].
Qed.

End Rows.

(** ** accession2taxid: the generator *)

Lemma open_check_file (fs : filesystem) (p : option string)
    (lines : list string) :
  open fs p = Ok lines → check_file fs p = ([], Ok true).
Proof.
  intros Hp. apply check_file_Ok. split; [done|]. split; [done|].
  unfold open in Hp. destruct p as [p|]; [|done]. exists p. split; [done|].
  destruct (fs !! p) as [[l| |]|] eqn:E; try done. by exists l.
Qed.

Lemma check_file_open (fs : filesystem) (p : option string) (err : list string) (b : bool) :
  check_file fs p = (err, Ok b) → ∃ lines, open fs p = Ok lines.
Proof.
  intros (_ & _ & q & -> & lines & Hq)%check_file_Ok.
  exists lines. unfold open. by rewrite Hq.
Qed.

Lemma accession2taxid_opened (self : Accession2TaxidParser) (fs : filesystem)
    (store : Store) (arg : option string) (chunk_arg : option Z)
    (lines : list string) :
  open fs (resolve arg (acc_file self)) = Ok lines →
  let out := rows self store (knownTaxonomicIds store)
               (effective_chunk self chunk_arg) start (readline lines) in
  accession2taxid self fs store arg chunk_arg =
  {| stderr := []; batches := out.1.1 ++ left_over out;
     seen := accessions out.1.2; stopped := out.2 |}.
Proof.
  intros Hopen. unfold accession2taxid, left_over. fold (resolve arg (acc_file self)).
  rewrite (open_check_file _ _ _ Hopen), Hopen. simpl.
  destruct (rows _ _ _ _ _ _) as [[bs st'] [[]|e]]; simpl; [done|].
  by rewrite app_nil_r.
Qed.

Lemma accession2taxid_unopened (self : Accession2TaxidParser)
    (fs : filesystem) (store : Store) (arg : option string)
    (chunk_arg : option Z) (e : exn) :
  open fs (resolve arg (acc_file self)) = Raise e →
  batches (accession2taxid self fs store arg chunk_arg) = [] ∧
  stopped (accession2taxid self fs store arg chunk_arg) = Raise (SystemExit 1).
Proof.
  intros Hopen. unfold accession2taxid. fold (resolve arg (acc_file self)).
  destruct (check_file fs _) as [err [b|e']] eqn:Hc.
  - apply check_file_open in Hc as [lines Hc]. congruence.
  - by apply check_file_Raise in Hc as [-> _].
Qed.

(** C2.  With an effective chunk size [c >= 1], every yielded batch but the
    last has exactly [c] records, the last one has between 1 and [c], and no
    batch is yielded when the input has no eligible record. *)
Theorem batch_size_invariant (self : Accession2TaxidParser) (fs : filesystem)
    (store : Store) (arg : option string) (chunk_arg : option Z) (c : Z) :
  effective_chunk self chunk_arg = Some c → 1 ≤ c →
  let bs := batches (accession2taxid self fs store arg chunk_arg) in
  (∀ i b, bs !! i = Some b → (S i < length bs)%nat →
     Z.of_nat (length b) = c) ∧
  (∀ b, last bs = Some b → 1 ≤ Z.of_nat (length b) ≤ c) ∧
  ((∀ lines, open fs (resolve arg (acc_file self)) = Ok lines →
      eligible_records self store (knownTaxonomicIds store) ∅
        (readline lines) = []) →
   bs = []).
Proof.
  intros Hc Hpos bs. subst bs.
  destruct (open fs (resolve arg (acc_file self))) as [lines|e] eqn:Hopen.
  2:{ destruct (accession2taxid_unopened self fs store arg chunk_arg e Hopen)
        as [-> _].
      split; [done|]. split; [done|]. done. }
  rewrite (accession2taxid_opened self fs store arg chunk_arg lines Hopen).
  simpl. rewrite Hc.
  pose proof (rows_sizes self store (knownTaxonomicIds store) (Some c) c
                (readline lines) start eq_refl Hpos eq_refl) as [Hsz Hleft];
    [simpl; lia|].
  pose proof (rows_eligible self store (knownTaxonomicIds store) (Some c)
                (readline lines) start) as (lost & Hel & _).
  destruct (rows _ _ _ _ _ _) as [[ys st'] r]. simpl in *.
  assert (left_over (ys, st', r) = [] ∨
          left_over (ys, st', r) = [entries st'] ∧ entries st' ≠ [])
    as [Hlo|[Hlo Hne]].
  { unfold left_over. simpl. destruct r; [|by left].
    case_bool_decide; [by right|by left]. }
  - rewrite Hlo, app_nil_r. split; [|split].
    + intros i b Hb _. by eapply (Forall_lookup_1 _ _ _ _ Hsz).
    + intros b Hb. apply last_Some_elem_of in Hb.
      rewrite Forall_forall in Hsz. specialize (Hsz _ Hb). lia.
    + intros Hnone. specialize (Hnone _ eq_refl). rewrite Hnone in Hel.
      symmetry in Hel. apply app_eq_nil in Hel as [Hys _].
      destruct ys as [|y ys]; [done|]. apply Forall_cons in Hsz as [Hy _].
      simpl in Hys. apply app_eq_nil in Hys as [-> _]. simpl in Hy. lia.
  - rewrite Hlo. split; [|split].
    + intros i b Hb Hi. rewrite length_app in Hi. simpl in Hi.
      rewrite lookup_app_l in Hb by lia.
      by eapply (Forall_lookup_1 _ _ _ _ Hsz).
    + intros b Hb. rewrite last_snoc in Hb. injection Hb as <-.
      destruct (entries st'); [done|]. simpl in *. lia.
    + intros Hnone. specialize (Hnone _ eq_refl). rewrite Hnone in Hel.
      symmetry in Hel. apply app_eq_nil in Hel as [_ Hel].
      by apply app_eq_nil in Hel as [? _].
Qed.

Lemma taxdump_Ok (self : TaxaDumpParser) (fs : filesystem) (store : Store)
    (nodes_arg names_arg : option string) (err : list string)
    (merged : list dict) :
  taxdump self fs store nodes_arg names_arg = (err, Ok merged) →
  ∃ nodes_lines names_lines nodes_data names_data,
    open fs (resolve nodes_arg (nodes_file self)) = Ok nodes_lines ∧
    open fs (resolve names_arg (names_file self)) = Ok names_lines ∧
    parse_nodes (knownTaxonomicIds store) nodes_lines = Ok nodes_data ∧
    parse_names (knownTaxonomicIds store) names_lines = Ok names_data ∧
    merged = merge nodes_data names_data.
Proof.
  unfold taxdump. fold (resolve nodes_arg (nodes_file self)).
  fold (resolve names_arg (names_file self)).
  destruct (check_file fs (resolve names_arg _)) as [e1 [b1|x1]] eqn:H1;
    [|done].
  destruct (check_file fs (resolve nodes_arg _)) as [e2 [b2|x2]] eqn:H2;
    [|unfold mbind, M_bind; simpl; done].
  apply check_file_Ok in H1 as (-> & -> & _).
  apply check_file_Ok in H2 as (-> & -> & _).
  unfold mbind at 1 2 3 4, M_bind, lift. simpl.
  destruct (open fs (resolve nodes_arg _)) as [nodes_lines|] eqn:Hn;
    [|done]. simpl.
  destruct (parse_nodes _ nodes_lines) as [nodes_data|] eqn:Hpn; [|done].
  destruct (open fs (resolve names_arg _)) as [names_lines|] eqn:Hm;
    [|done]. simpl.
  destruct (parse_names _ names_lines) as [names_data|] eqn:Hpm; [|done].
  simpl. intros [= <- <-]. by exists nodes_lines, names_lines, nodes_data, names_data.
Qed.

(** C3.  Every record that [accession2taxid] yields has a known taxonomic
    id.  In [taxdump], a row of either file whose id is known leaves the
    sequence as it is, and every merged record that [taxdump] returns is
    built from a nodes line and a names line whose ids are both unknown to
    the store; its own id, the one of the names line, is unknown too. *)
Theorem known_id_filter (store : Store) :
  (∀ self fs arg chunk_arg b r,
     b ∈ batches (accession2taxid self fs store arg chunk_arg) → r ∈ b →
     taxid r ∈ knownTaxonomicIds store) ∧
  (∀ data line,
     row_id line ∈ knownTaxonomicIds store →
     nodes_row (knownTaxonomicIds store) data line = Ok data ∧
     names_row (knownTaxonomicIds store) data line = Ok data) ∧
  (∀ self fs nodes_arg names_arg err merged t,
     taxdump self fs store nodes_arg names_arg = (err, Ok merged) →
     t ∈ merged →
     ∃ nodes_lines names_lines nodes_line names_line nodes names,
       open fs (resolve nodes_arg (nodes_file self)) = Ok nodes_lines ∧
       open fs (resolve names_arg (names_file self)) = Ok names_lines ∧
       nodes_line ∈ nodes_lines ∧ names_line ∈ names_lines ∧
       (row_id nodes_line ∉ knownTaxonomicIds store) ∧
       (row_id names_line ∉ knownTaxonomicIds store) ∧
       nodes_row (knownTaxonomicIds store) [] nodes_line = Ok [nodes] ∧
       names_row (knownTaxonomicIds store) [] names_line = Ok [names] ∧
       t = names ∪ nodes ∧
       t !! "ncbi_taxid" = Some (row_id names_line)).
Proof.
  split; [|split].
  - intros self fs arg chunk_arg b r Hb Hr.
    destruct (open fs (resolve arg (acc_file self))) as [lines|e] eqn:Hopen.
    2:{ destruct (accession2taxid_unopened self fs store arg chunk_arg e Hopen)
          as [Hnil _]. rewrite Hnil in Hb. by apply elem_of_nil in Hb. }
    rewrite (accession2taxid_opened self fs store arg chunk_arg lines Hopen)
      in Hb. simpl in Hb.
    pose proof (rows_known self store (knownTaxonomicIds store)
                  (effective_chunk self chunk_arg) (readline lines) start)
      as [Hys Hleft]; [by constructor|].
    destruct (rows _ _ _ _ _ _) as [[ys st'] res]. simpl in *.
    apply elem_of_app in Hb as [Hb|Hb].
    + rewrite Forall_forall in Hys. specialize (Hys _ Hb).
      rewrite Forall_forall in Hys. by apply Hys.
    + unfold left_over in Hb. simpl in Hb. destruct res; [|by apply elem_of_nil in Hb].
      case_bool_decide; [|by apply elem_of_nil in Hb].
      apply list_elem_of_singleton in Hb as ->.
      rewrite Forall_forall in Hleft. by apply Hleft.
  - intros data line Hid. unfold nodes_row, names_row.
    rewrite !item_0_split. simpl. fold (row_id line).
    destruct (decide (row_id line ∈ _)); [|done].
    by destruct (Str.contains _ line).
  - intros self fs nodes_arg names_arg err merged t Htax Ht.
    apply taxdump_Ok in Htax
      as (nodes_lines & names_lines & nodes_data & names_data
          & Hn & Hm & Hpn & Hpm & ->).
    apply list_elem_of_lookup in Ht as [i Hi].
    rewrite merge_lookup in Hi.
    destruct (nodes_data !! i) as [nodes|] eqn:Hnodes; [|done].
    destruct (names_data !! i) as [names|] eqn:Hnames; [|done].
    simpl in Hi. injection Hi as <-.
    apply parse_nodes_from_lines in Hpn. apply parse_names_from_lines in Hpm.
    rewrite Forall_lookup in Hpn. rewrite Forall_lookup in Hpm.
    destruct (Hpn _ _ Hnodes) as (nl & Hnl & Hnid & Hnrow & _).
    destruct (Hpm _ _ Hnames) as (ml & Hml & Hmid & Hmrow & name & Hname).
    exists nodes_lines, names_lines, nl, ml, nodes, names.
    do 9 (split; [done|]).
    rewrite lookup_union_l'; subst names;
      by destruct (dict_of_names_lookup (row_id ml) name) as (-> & _).
Qed.

(** ** Counting the records of one accession *)

Section Counting.
Context (self : Accession2TaxidParser) (store : Store).
Context (taxids : gset string) (a : string).

#[local] Abbreviation eligible_from := (eligible_records self store taxids).
#[local] Abbreviation count_a rs :=
  (length (filter (λ r : AccessionRecord, accession r = a) rs)).

Lemma keep_eligible_for (seen_so_far seen' : gset string) (line : string)
    (r : AccessionRecord) :
  keep self store taxids seen_so_far line = Some (r, seen') →
  eligible_for taxids a line = bool_decide (accession r = a).
Proof.
  intros (Hp & Hknown & _)%keep_Some. unfold eligible_for. rewrite Hp.
  by rewrite (bool_decide_eq_true_2 _ Hknown), andb_true_r.
Qed.

Lemma keep_None_fast (seen_so_far : gset string) (line : string) :
  fast self = true → keep self store taxids seen_so_far line = None →
  eligible_for taxids a line = false.
Proof.
  unfold keep, eligible_for. intros ->.
  destruct (parsed line) as [[acc tax]|]; [|done].
  destruct (decide (tax ∈ taxids)); [done|].
  intros _. by rewrite (bool_decide_eq_false_2 (tax ∈ taxids)), andb_false_r.
Qed.

Lemma keep_None_default (seen_so_far : gset string) (line : string) :
  fast self = false → keep self store taxids seen_so_far line = None →
  a ∉ seen_so_far → eligible_for taxids a line = false.
Proof.
  unfold keep, eligible_for. intros ->.
  destruct (parsed line) as [[acc tax]|]; [|done].
  destruct (decide (tax ∈ taxids)).
  - destruct (decide (acc ∈ seen_so_far)); [|done]. intros _ Ha.
    rewrite (bool_decide_eq_false_2 (acc = a)); [done|]. by intros ->.
  - intros _ _.
    by rewrite (bool_decide_eq_false_2 (tax ∈ taxids)), andb_false_r.
Qed.

Lemma lines_for_cons (line : string) (lines : list string) :
  lines_for taxids a (line :: lines) =
  ((if eligible_for taxids a line then 1 else 0) + lines_for taxids a lines)%nat.
Proof.
  unfold lines_for. rewrite filter_cons.
  destruct (eligible_for taxids a line); by case_decide.
Qed.

Lemma count_a_cons (r : AccessionRecord) (rs : list AccessionRecord) :
  count_a (r :: rs) =
  ((if bool_decide (accession r = a) then 1 else 0) + count_a rs)%nat.
Proof. rewrite filter_cons. by case_decide; case_bool_decide. Qed.

(** Fast mode: one record for each eligible line. *)
Lemma count_fast (lines : list string) : ∀ seen_so_far,
  fast self = true →
  count_a (eligible_from seen_so_far lines) = lines_for taxids a lines.
Proof.
  induction lines as [|line lines IH]; intros seen_so_far Hfast; [done|].
  rewrite lines_for_cons. simpl.
  destruct (keep _ _ _ _ line) as [[r seen']|] eqn:Hk.
  - rewrite count_a_cons, (keep_eligible_for _ _ _ _ Hk), IH; done.
  - rewrite (keep_None_fast _ _ Hfast Hk), IH; done.
Qed.

(** Default mode, an accession that the store has: one record for each
    eligible line. *)
Lemma count_default_stored (lines : list string) : ∀ seen_so_far,
  fast self = false → accessionExists store a = true → a ∉ seen_so_far →
  count_a (eligible_from seen_so_far lines) = lines_for taxids a lines.
Proof.
  induction lines as [|line lines IH]; intros seen_so_far Hfast Ha Hseen;
    [done|].
  rewrite lines_for_cons. simpl.
  destruct (keep _ _ _ _ line) as [[r seen']|] eqn:Hk.
  - rewrite count_a_cons, (keep_eligible_for _ _ _ _ Hk), IH; try done.
    apply keep_Some in Hk as (_ & _ & _ & ->). rewrite Hfast. simpl.
    destruct (accessionExists store (accession r)) eqn:E; simpl; [done|].
    apply not_elem_of_add; [congruence|done].
  - rewrite (keep_None_default _ _ Hfast Hk Hseen), IH; done.
Qed.

(** Default mode: no record for an accession already seen. *)
Lemma count_default_seen (lines : list string) : ∀ seen_so_far,
  fast self = false → a ∈ seen_so_far →
  count_a (eligible_from seen_so_far lines) = 0%nat.
Proof.
  induction lines as [|line lines IH]; intros seen_so_far Hfast Hseen;
    [done|].
  simpl. destruct (keep _ _ _ _ line) as [[r seen']|] eqn:Hk; [|by apply IH].
  apply keep_Some in Hk as (_ & _ & Hr & ->). specialize (Hr Hfast).
  rewrite count_a_cons, bool_decide_eq_false_2 by (by intros <-).
  apply IH; [done|]. destruct (_ && _); set_solver.
Qed.

(** Default mode, an accession that the store does not have: one record
    when there is an eligible line, whatever their number. *)
Lemma count_default_new (lines : list string) : ∀ seen_so_far,
  fast self = false → accessionExists store a = false → a ∉ seen_so_far →
  count_a (eligible_from seen_so_far lines) =
  (1 `min` lines_for taxids a lines)%nat.
Proof.
  induction lines as [|line lines IH]; intros seen_so_far Hfast Ha Hseen;
    [done|].
  rewrite lines_for_cons. simpl.
  destruct (keep _ _ _ _ line) as [[r seen']|] eqn:Hk.
  - rewrite count_a_cons, (keep_eligible_for _ _ _ _ Hk).
    apply keep_Some in Hk as (_ & _ & _ & ->). rewrite Hfast. simpl.
    case_bool_decide as Hr.
    + rewrite Hr, Ha. simpl. rewrite count_default_seen; [lia|done|].
      by apply elem_of_union_l, elem_of_singleton.
    + rewrite IH; [done..|].
      destruct (accessionExists store (accession r)); simpl; [done|].
      apply not_elem_of_add; [congruence|done].
  - rewrite (keep_None_default _ _ Hfast Hk Hseen), IH; done.
Qed.

End Counting.

(** ** The batches and the eligible records *)

(** The yielded batches hold the eligible records in order, up to the
    records lost when the loop raises. *)
Lemma accession2taxid_concat (self : Accession2TaxidParser) (fs : filesystem)
    (store : Store) (arg : option string) (chunk_arg : option Z)
    (lines : list string) :
  open fs (resolve arg (acc_file self)) = Ok lines →
  ∃ lost,
    eligible_records self store (knownTaxonomicIds store) ∅ (readline lines) =
      concat (batches (accession2taxid self fs store arg chunk_arg)) ++ lost ∧
    (stopped (accession2taxid self fs store arg chunk_arg) = Ok () →
     lost = []).
Proof.
  intros Hopen.
  rewrite (accession2taxid_opened self fs store arg chunk_arg lines Hopen).
  simpl.
  destruct (rows_eligible self store (knownTaxonomicIds store)
              (effective_chunk self chunk_arg) (readline lines) start)
    as (lost & Hel & Hlost).
  simpl in Hel. rewrite Hel. unfold left_over.
  destruct (rows _ _ _ _ _ _) as [[ys st'] [[]|e]]; simpl in *.
  - exists []. rewrite (Hlost eq_refl), !app_nil_r. split; [|done].
    rewrite concat_app. f_equal. case_bool_decide as Hne; simpl.
    + by rewrite app_nil_r.
    + destruct (entries st'); [done|]. by destruct Hne.
  - exists (entries st' ++ lost). by rewrite app_nil_r.
Qed.

Lemma accession2taxid_well_formed (self : Accession2TaxidParser)
    (fs : filesystem) (store : Store) (arg : option string)
    (chunk_arg : option Z) (lines : list string) :
  open fs (resolve arg (acc_file self)) = Ok lines →
  Forall well_formed (readline lines) →
  stopped (accession2taxid self fs store arg chunk_arg) = Ok () ∧
  concat (batches (accession2taxid self fs store arg chunk_arg)) =
  eligible_records self store (knownTaxonomicIds store) ∅ (readline lines).
Proof.
  intros Hopen Hwf.
  destruct (accession2taxid_concat self fs store arg chunk_arg lines Hopen)
    as (lost & -> & Hlost).
  assert (stopped (accession2taxid self fs store arg chunk_arg) = Ok ())
    as Hstop.
  { rewrite (accession2taxid_opened self fs store arg chunk_arg lines Hopen).
    simpl. by apply rows_well_formed. }
  by rewrite (Hlost Hstop), app_nil_r.
Qed.

(** C10, as the code has it.  The concatenation of the yielded batches is
    always a prefix of the eligible records in line order, and it is the
    whole sequence when the generator stops without raising; it does so when
    every line after the header decodes and has three columns. *)
Theorem batches_partition_eligible (self : Accession2TaxidParser)
    (fs : filesystem) (store : Store) (arg : option string)
    (chunk_arg : option Z) (lines : list string) :
  open fs (resolve arg (acc_file self)) = Ok lines →
  let g := accession2taxid self fs store arg chunk_arg in
  let eligible :=
    eligible_records self store (knownTaxonomicIds store) ∅ (readline lines) in
  concat (batches g) `prefix_of` eligible ∧
  (stopped g = Ok () → concat (batches g) = eligible) ∧
  (Forall well_formed (readline lines) →
   stopped g = Ok () ∧ concat (batches g) = eligible).
Proof.
  intros Hopen g eligible.
  destruct (accession2taxid_concat self fs store arg chunk_arg lines Hopen)
    as (lost & Hel & Hlost).
  split; [|split].
  - exists lost. exact Hel.
  - intros Hstop. subst eligible. by rewrite Hel, (Hlost Hstop), app_nil_r.
  - by apply accession2taxid_well_formed.
Qed.

Lemma batches_partition_eligible_witness :
  concat (batches (accession2taxid (Demo.default_mode "three.gz" 2) Demo.fs
                     Demo.taxa_store None (Some 2))) =
  [Demo.A1; Demo.A2; Demo.A3].
Proof.
  destruct (batches_partition_eligible (Demo.default_mode "three.gz" 2)
              Demo.fs Demo.taxa_store None (Some 2) Demo.three_lines)
    as (_ & _ & H); [by vm_compute|].
  destruct H as [_ ->]; [|by vm_compute].
  apply (bool_decide_unpack _). by vm_compute.
Defined.

(** C10, as the claim states it, fails: the line [A2] of cut.gz has one
    column, the loop raises [IndexError] on it, and the record of the first
    line after the header, which is eligible, is in no batch. *)
Lemma batches_lose_records_on_raise :
  let g := accession2taxid (Demo.default_mode "cut.gz" 500) Demo.fs
             Demo.taxa_store None (Some 500) in
  concat (batches g) = [] ∧ stopped g = Raise IndexError ∧
  eligible_records (Demo.default_mode "cut.gz" 500) Demo.taxa_store
    (knownTaxonomicIds Demo.taxa_store) ∅
    (readline Demo.cut_lines) =
  [Demo.A1].
Proof. by vm_compute. Qed.

(** C8.  The first line of the accession file is dropped unread: two files
    that differ in their first line only give the same generator; the
    records yielded come from the lines after it; and when those lines are
    well formed the generator stops normally, whatever the first line is. *)
Theorem header_is_discarded (self : Accession2TaxidParser) (fs : filesystem)
    (store : Store) (arg : option string) (chunk_arg : option Z)
    (p : string) (header : string) (data : list string) :
  resolve arg (acc_file self) = Some p →
  let g := accession2taxid self (<[p := RegularFile (header :: data)]> fs)
             store arg chunk_arg in
  (∀ header',
     accession2taxid self (<[p := RegularFile (header' :: data)]> fs)
       store arg chunk_arg = g) ∧
  concat (batches g) `prefix_of`
    eligible_records self store (knownTaxonomicIds store) ∅ data ∧
  (Forall well_formed data → stopped g = Ok ()).
Proof.
  intros Hp g.
  assert (∀ h, open (<[p := RegularFile (h :: data)]> fs)
                 (resolve arg (acc_file self)) = Ok (h :: data)) as Hopen.
  { intros h. rewrite Hp. unfold open. by rewrite lookup_insert_eq. }
  split; [|split].
  - intros header'. subst g.
    by rewrite !(accession2taxid_opened _ _ _ _ _ _ (Hopen _)).
  - destruct (accession2taxid_concat self _ store arg chunk_arg _
                (Hopen header)) as (lost & Hel & _).
    exists lost. exact Hel.
  - intros Hwf.
    by apply (accession2taxid_well_formed self _ store arg chunk_arg _
                (Hopen header)).
Qed.

Lemma header_is_discarded_witness :
  accession2taxid (Demo.fast_mode "acc.gz" 2)
    (<["acc.gz" := RegularFile ("A0" :: tail Demo.three_lines)]> Demo.fs)
    Demo.taxa_store None None =
  accession2taxid (Demo.fast_mode "acc.gz" 2)
    (<["acc.gz" := RegularFile (Demo.header :: tail Demo.three_lines)]> Demo.fs)
    Demo.taxa_store None None.
Proof.
  apply (header_is_discarded (Demo.fast_mode "acc.gz" 2) Demo.fs
           Demo.taxa_store None None "acc.gz" Demo.header
           (tail Demo.three_lines)).
  reflexivity.
Defined.

(** C9, as the code has it.  In default mode an accession that the store has
    is never among the accessions seen; when every line after the header
    decodes and has three columns, it is emitted once for each of its
    eligible lines. *)
Theorem stored_accession_is_not_deduplicated (self : Accession2TaxidParser)
    (fs : filesystem) (store : Store) (arg : option string)
    (chunk_arg : option Z) (lines : list string) (a : string) :
  fast self = false → accessionExists store a = true →
  open fs (resolve arg (acc_file self)) = Ok lines →
  let g := accession2taxid self fs store arg chunk_arg in
  (a ∉ seen g) ∧
  (Forall well_formed (readline lines) →
   emitted a (batches g) =
   lines_for (knownTaxonomicIds store) a (readline lines)).
Proof.
  intros Hfast Ha Hopen g. split.
  - subst g.
    rewrite (accession2taxid_opened self fs store arg chunk_arg lines Hopen).
    simpl. apply rows_seen; [done|]. simpl. set_solver.
  - intros Hwf. unfold emitted. subst g.
    destruct (accession2taxid_well_formed self fs store arg chunk_arg lines
                Hopen Hwf) as [_ ->].
    apply count_default_stored; [done..|set_solver].
Qed.

Lemma stored_accession_is_not_deduplicated_witness :
  emitted "A1"
    (batches (accession2taxid (Demo.default_mode "twice.gz" 500) Demo.fs
                Demo.full_store None (Some 500))) = 2%nat.
Proof.
  destruct (stored_accession_is_not_deduplicated
              (Demo.default_mode "twice.gz" 500) Demo.fs Demo.full_store None
              (Some 500) Demo.twice_lines "A1") as [_ H];
    [reflexivity|reflexivity|by vm_compute|].
  rewrite H; [by vm_compute|].
  apply (bool_decide_unpack _). by vm_compute.
Defined.

(** C9, as the claim states it, fails: in cut.gz accession A1, which the
    store has, is on two eligible lines, and the line after them has one
    column; the loop raises on it before any batch is yielded. *)
Lemma stored_accession_lost_on_raise :
  let g := accession2taxid (Demo.default_mode "cut.gz" 500) Demo.fs
             Demo.full_store None (Some 500) in
  lines_for (knownTaxonomicIds Demo.full_store) "A1"
    (readline Demo.cut_lines) = 2%nat ∧
  emitted "A1" (batches g) = 0%nat ∧ stopped g = Raise IndexError.
Proof. by vm_compute. Qed.

(** C4, as the code has it.  For a file whose lines after the header decode
    and have three columns, and an accession on exactly two eligible lines:
    fast mode emits it twice; default mode emits it once when the store does
    not have it. *)
Theorem duplicate_accession (self : Accession2TaxidParser) (fs : filesystem)
    (store : Store) (arg : option string) (chunk_arg : option Z)
    (lines : list string) (a : string) :
  open fs (resolve arg (acc_file self)) = Ok lines →
  Forall well_formed (readline lines) →
  lines_for (knownTaxonomicIds store) a (readline lines) = 2%nat →
  let g := accession2taxid self fs store arg chunk_arg in
  (fast self = true → emitted a (batches g) = 2%nat) ∧
  (fast self = false → accessionExists store a = false →
   emitted a (batches g) = 1%nat).
Proof.
  intros Hopen Hwf Htwo g. unfold emitted. subst g.
  destruct (accession2taxid_well_formed self fs store arg chunk_arg lines
              Hopen Hwf) as [_ ->].
  split.
  - intros Hfast. by rewrite count_fast.
  - intros Hfast Ha. rewrite count_default_new, Htwo; [done..|set_solver].
Qed.

Lemma duplicate_accession_witness :
  emitted "A1"
    (batches (accession2taxid (Demo.fast_mode "twice.gz" 500) Demo.fs
                Demo.taxa_store None (Some 500))) = 2%nat ∧
  emitted "A1"
    (batches (accession2taxid (Demo.default_mode "twice.gz" 500) Demo.fs
                Demo.taxa_store None (Some 500))) = 1%nat.
Proof.
  assert (Forall well_formed (readline Demo.twice_lines)) as Hwf.
  { apply (bool_decide_unpack _). by vm_compute. }
  split.
  - apply (duplicate_accession (Demo.fast_mode "twice.gz" 500) Demo.fs
             Demo.taxa_store None (Some 500) Demo.twice_lines "A1");
      [by vm_compute|done|by vm_compute|reflexivity].
  - apply (duplicate_accession (Demo.default_mode "twice.gz" 500) Demo.fs
             Demo.taxa_store None (Some 500) Demo.twice_lines "A1");
      [by vm_compute|done|by vm_compute|reflexivity|reflexivity].
Defined.

(** C4, as the claim states it, fails.  With accession A1 in the store,
    default mode emits both lines of twice.gz; and in fast mode nothing of
    cut.gz is emitted, the loop raising on the line with one column. *)
Lemma duplicate_accession_in_store :
  lines_for (knownTaxonomicIds Demo.full_store) "A1"
    (readline Demo.twice_lines) = 2%nat ∧
  fast (Demo.default_mode "twice.gz" 500) = false ∧
  emitted "A1"
    (batches (accession2taxid (Demo.default_mode "twice.gz" 500) Demo.fs
                Demo.full_store None (Some 500))) = 2%nat ∧
  lines_for (knownTaxonomicIds Demo.full_store) "A1"
    (readline Demo.cut_lines) = 2%nat ∧
  emitted "A1"
    (batches (accession2taxid (Demo.fast_mode "cut.gz" 500) Demo.fs
                Demo.full_store None (Some 500))) = 0%nat.
Proof. by vm_compute. Qed.

(** C5 does not hold of the code.  A call without a chunk argument binds
    [chunk] to the default 500 of the signature, which is not a false value,
    so line 231 never reads the chunk size stored in the parser: a parser
    built with chunk size 2 yields the three records of three.gz as one
    batch.  The stored size is used when the call passes [None] or [0]. *)
Theorem call_without_chunk_uses_500 :
  (∀ self, effective_chunk self (default (Some 500) None) = Some 500) ∧
  (∀ self, effective_chunk self None = chunk self ∧
           effective_chunk self (Some 0) = chunk self) ∧
  batches (accession2taxid_call (Demo.default_mode "three.gz" 2) Demo.fs
             Demo.taxa_store None None) =
    [[Demo.A1; Demo.A2; Demo.A3]] ∧
  batches (accession2taxid_call (Demo.default_mode "three.gz" 2) Demo.fs
             Demo.taxa_store None (Some None)) =
    [[Demo.A1; Demo.A2]; [Demo.A3]].
Proof. split; [done|]. split; [done|]. by vm_compute. Qed.

(** ** The claims on sample inputs *)

Lemma taxdump_merges_by_position_witness :
  ∃ merged,
    taxdump {| nodes_file := Some "nodes.dmp"; names_file := None |} Demo.fs
      Demo.empty_store None (Some "names.dmp") = ([], Ok merged) ∧
    length merged = 2%nat.
Proof.
  destruct (taxdump_merges_by_position
              {| nodes_file := Some "nodes.dmp"; names_file := None |}
              Demo.fs Demo.empty_store None (Some "names.dmp")
              Demo.nodes_lines Demo.names_lines
              Demo.nodes_data Demo.names_data)
    as (merged & Hm & Hlen & _).
  - vm_compute; reflexivity.
  - vm_compute; reflexivity.
  - vm_cast_no_check (eq_refl (Ok Demo.nodes_data)).
  - vm_cast_no_check (eq_refl (Ok Demo.names_data)).
  - exists merged. split; [exact Hm|exact Hlen].
Defined.

Lemma batch_size_invariant_witness :
  let bs := batches (accession2taxid (Demo.default_mode "three.gz" 2) Demo.fs
                       Demo.taxa_store None None) in
  (∀ i b, bs !! i = Some b → (S i < length bs)%nat → Z.of_nat (length b) = 2) ∧
  (∀ b, last bs = Some b → 1 ≤ Z.of_nat (length b) ≤ 2) ∧
  ((∀ lines,
      open Demo.fs (resolve None (acc_file (Demo.default_mode "three.gz" 2))) =
        Ok lines →
      eligible_records (Demo.default_mode "three.gz" 2) Demo.taxa_store
        (knownTaxonomicIds Demo.taxa_store) ∅ (readline lines) = []) →
   bs = []).
Proof.
  apply (batch_size_invariant (Demo.default_mode "three.gz" 2) Demo.fs
           Demo.taxa_store None None 2); [reflexivity|lia].
Defined.

(** The two scenarios of the specification, section 8. *)
Example scenario_taxdump :
  taxdump {| nodes_file := Some "nodes.dmp"; names_file := Some "names.dmp" |}
    Demo.fs Demo.empty_store None None =
  ([], Ok [dict_of [("ncbi_taxid", "9606"); ("parent_taxid", "9605");
                    ("tax_name", "Homo sapiens");
                    ("lineage_level", "species")];
           dict_of [("ncbi_taxid", "9605"); ("parent_taxid", "9604");
                    ("tax_name", "Homo"); ("lineage_level", "genus")]]).
Proof. vm_compute. reflexivity. Qed.

Example scenario_accession2taxid :
  let g := accession2taxid (Demo.default_mode "acc.gz" 500)
             (<["acc.gz" :=
                  RegularFile [Demo.header; Demo.tsv ["A1"; "v1"; "9606"];
                               Demo.tsv ["A2"; "v1"; "555"]]]> Demo.fs)
             Demo.taxa_store None (Some 1) in
  batches g = [[Demo.A1]] ∧ stopped g = Ok ().
Proof. by vm_compute. Qed.

(** * Further properties *)

(** ** The loops of taxdump in closed form *)

Lemma nodes_row_cases (ncbi_ids : gset string) (data : list dict)
    (line : string) :
  nodes_row ncbi_ids data line =
  if decide (row_id line ∈ ncbi_ids) then Ok data
  else if decide (3 ≤ length (Str.split Str.PIPE line))%nat
       then Ok (data ++ [nodes_record line])
       else Raise IndexError.
Proof.
  unfold nodes_row, nodes_record, row_id. rewrite item_0_split. simpl.
  destruct (decide (_ ∈ ncbi_ids)); [done|].
  destruct (Str.split Str.PIPE line) as [|a [|b [|c l]]]; simpl;
    try case_decide; simpl in *; first [done|lia].
Qed.

Lemma names_row_cases (ncbi_ids : gset string) (data : list dict)
    (line : string) :
  names_row ncbi_ids data line =
  if decide (names_kept ncbi_ids line)
  then if decide (2 ≤ length (Str.split Str.PIPE line))%nat
       then Ok (data ++ [names_record line])
       else Raise IndexError
  else Ok data.
Proof.
  unfold names_row, names_record.
  destruct (decide (names_kept ncbi_ids line)) as [[Hc Hid]|Hk].
  - rewrite Hc, !item_0_split. simpl. fold (row_id line).
    rewrite decide_False by done.
    destruct (Str.split Str.PIPE line) as [|a [|b l]]; simpl;
      try case_decide; simpl in *; first [done|lia].
  - destruct (Str.contains _ line) eqn:Hc; [|done].
    rewrite item_0_split. simpl. fold (row_id line).
    destruct (decide (row_id line ∈ ncbi_ids)); [done|].
    by destruct Hk.
Qed.

Lemma parse_nodes_ok (ncbi_ids : gset string) (lines : list string) :
  ∀ data, Forall (nodes_line_ok ncbi_ids) lines →
  for_each (nodes_row ncbi_ids) data lines =
  Ok (data ++ (nodes_record <$> filter (λ l, row_id l ∉ ncbi_ids) lines)).
Proof.
  induction lines as [|line lines IH]; intros data Hok; simpl.
  - by rewrite app_nil_r.
  - apply Forall_cons in Hok as [Hline Hok].
    rewrite nodes_row_cases, filter_cons.
    destruct (decide (row_id line ∈ ncbi_ids)) as [Hin|Hin];
      destruct (decide (row_id line ∉ ncbi_ids)) as [Hout|Hout];
      try done.
    + by apply IH.
    + destruct Hline as [?|Hlen]; [done|].
      destruct (decide (3 ≤ _)%nat); [|done].
      rewrite IH by done. by rewrite <- app_assoc.
Qed.


Lemma parse_names_ok (ncbi_ids : gset string) (lines : list string) :
  ∀ data, Forall (names_line_ok ncbi_ids) lines →
  for_each (names_row ncbi_ids) data lines =
  Ok (data ++ (names_record <$> filter (names_kept ncbi_ids) lines)).
Proof.
  induction lines as [|line lines IH]; intros data Hok; simpl.
  - by rewrite app_nil_r.
  - apply Forall_cons in Hok as [Hline Hok].
    rewrite names_row_cases, filter_cons.
    destruct (decide (names_kept ncbi_ids line)) as [Hk|Hk].
    + destruct (decide (2 ≤ _)%nat) as [Hlen|Hlen];
        [|by destruct Hlen; apply Hline].
      rewrite IH by done. by rewrite <- app_assoc.
    + by apply IH.
Qed.


Lemma taxdump_opened (self : TaxaDumpParser) (fs : filesystem)
    (store : Store) (nodes_arg names_arg : option string)
    (nodes_lines names_lines : list string) :
  open fs (resolve nodes_arg (nodes_file self)) = Ok nodes_lines →
  open fs (resolve names_arg (names_file self)) = Ok names_lines →
  taxdump self fs store nodes_arg names_arg =
  ([], nodes_data ← parse_nodes (knownTaxonomicIds store) nodes_lines;
       names_data ← parse_names (knownTaxonomicIds store) names_lines;
       Ok (merge nodes_data names_data)).
Proof.
  intros Hn Hm. unfold taxdump. fold (resolve nodes_arg (nodes_file self)).
  fold (resolve names_arg (names_file self)).
  rewrite (open_check_file _ _ _ Hn), (open_check_file _ _ _ Hm), Hn, Hm.
  unfold mbind at 1 2 3 4, M_bind, lift. simpl.
  destruct (parse_nodes _ nodes_lines) as [nodes_data|]; [|done]. simpl.
  by destruct (parse_names _ names_lines) as [names_data|].
Qed.

(** X1.  On two readable files whose lines have the columns that are read,
    [taxdump] returns, without printing on stderr, the records of the nodes
    lines whose id is unknown paired in order with the records of the names
    lines that hold the marker and whose id is unknown.  Lines with a known
    id and names lines without the marker have no effect, whatever they
    hold. *)
Theorem taxdump_closed_form (self : TaxaDumpParser) (fs : filesystem)
    (store : Store) (nodes_arg names_arg : option string)
    (nodes_lines names_lines : list string) :
  open fs (resolve nodes_arg (nodes_file self)) = Ok nodes_lines →
  open fs (resolve names_arg (names_file self)) = Ok names_lines →
  Forall (nodes_line_ok (knownTaxonomicIds store)) nodes_lines →
  Forall (names_line_ok (knownTaxonomicIds store)) names_lines →
  taxdump self fs store nodes_arg names_arg =
  ([], Ok (merge
             (nodes_record <$>
                filter (λ l, row_id l ∉ knownTaxonomicIds store) nodes_lines)
             (names_record <$>
                filter (names_kept (knownTaxonomicIds store)) names_lines))).
Proof.
  intros Hn Hm Hnodes Hnames. rewrite (taxdump_opened _ _ _ _ _ _ _ Hn Hm).
  unfold parse_nodes, parse_names.
  by rewrite parse_nodes_ok, parse_names_ok.
Qed.

Lemma taxdump_closed_form_witness :
  (taxdump {| nodes_file := Some "nodes.dmp"; names_file := Some "names.dmp" |}
     Demo.fs Demo.taxa_store None None).2 =
  Ok (merge
        (nodes_record <$>
           filter (λ l, row_id l ∉ knownTaxonomicIds Demo.taxa_store)
             Demo.nodes_lines)
        (names_record <$>
           filter (names_kept (knownTaxonomicIds Demo.taxa_store))
             Demo.names_lines)).
Proof.
  rewrite (taxdump_closed_form
             {| nodes_file := Some "nodes.dmp"; names_file := Some "names.dmp" |}
             Demo.fs Demo.taxa_store None None
             Demo.nodes_lines Demo.names_lines); [done|..].
  - vm_compute; reflexivity.
  - vm_compute; reflexivity.
  - apply (bool_decide_unpack _). by vm_compute.
  - apply (bool_decide_unpack _). by vm_compute.
Defined.



Lemma filter_none {A} (P : A → Prop) `{∀ x, Decision (P x)} (l : list A) :
  Forall (λ x, ¬ P x) l → filter P l = [].
Proof.
  induction 1 as [|x l Hx _ IH]; [done|].
  by rewrite filter_cons, decide_False.
Qed.

(** X3.  Once the store knows the id of every line of nodes.dmp and of every
    names line with the marker, [taxdump] returns the empty list; it does
    not raise, however few columns the lines have. *)
Theorem taxdump_all_known (self : TaxaDumpParser) (fs : filesystem)
    (store : Store) (nodes_arg names_arg : option string)
    (nodes_lines names_lines : list string) :
  open fs (resolve nodes_arg (nodes_file self)) = Ok nodes_lines →
  open fs (resolve names_arg (names_file self)) = Ok names_lines →
  Forall (λ l, row_id l ∈ knownTaxonomicIds store) nodes_lines →
  Forall (λ l, Str.contains "scientific name" l = true →
               row_id l ∈ knownTaxonomicIds store) names_lines →
  taxdump self fs store nodes_arg names_arg = ([], Ok []).
Proof.
  intros Hn Hm Hnodes Hnames. rewrite (taxdump_opened _ _ _ _ _ _ _ Hn Hm).
  unfold parse_nodes, parse_names.
  rewrite parse_nodes_ok, parse_names_ok; simpl.
  - rewrite (filter_none _ nodes_lines); [done|].
    eapply Forall_impl; [exact Hnodes|]. intros l Hl Hnot. by apply Hnot.
  - eapply Forall_impl; [exact Hnames|]. intros l Hl [Hc Hid].
    destruct Hid. by apply Hl.
  - eapply Forall_impl; [exact Hnodes|]. intros l Hl. by left.
Qed.

Lemma taxdump_all_known_witness :
  taxdump (Sample.both "short.dmp" "names.dmp") Sample.fs
    {| knownTaxonomicIds := {["9606"; "9605"]};
       accessionExists := λ _, false |} None None = ([], Ok []).
Proof.
  apply (taxdump_all_known (Sample.both "short.dmp" "names.dmp") Sample.fs _
           None None [Sample.short_line] Demo.names_lines).
  - vm_compute; reflexivity.
  - vm_compute; reflexivity.
  - apply (bool_decide_unpack _). by vm_compute.
  - apply (bool_decide_unpack _). by vm_compute.
Defined.

(** ** Failing checks and the setters *)

(** X4.  A parse stops at the first path that [check_file] refuses, with
    what [check_file] printed and raised and nothing else.  [taxdump] checks
    the names path first: when it is refused the nodes path is not looked
    at.  [accession2taxid] refused yields no batch. *)
Theorem parse_stops_at_the_check (fs : filesystem) (store : Store) :
  (∀ self nodes_arg names_arg err e,
     check_file fs (resolve names_arg (names_file self)) = (err, Raise e) →
     taxdump self fs store nodes_arg names_arg = (err, Raise e)) ∧
  (∀ self nodes_arg names_arg err e,
     (check_file fs (resolve names_arg (names_file self))).2 = Ok true →
     check_file fs (resolve nodes_arg (nodes_file self)) = (err, Raise e) →
     taxdump self fs store nodes_arg names_arg = (err, Raise e)) ∧
  (∀ self arg chunk_arg err e,
     check_file fs (resolve arg (acc_file self)) = (err, Raise e) →
     accession2taxid self fs store arg chunk_arg =
     {| stderr := err; batches := []; seen := ∅; stopped := Raise e |}).
Proof.
  split; [|split].
  - intros self nodes_arg names_arg err e Hc. unfold taxdump.
    fold (resolve names_arg (names_file self)). by rewrite Hc.
  - intros self nodes_arg names_arg err e Hm Hn. unfold taxdump.
    fold (resolve names_arg (names_file self)).
    fold (resolve nodes_arg (nodes_file self)).
    destruct (check_file fs (resolve names_arg _)) as [err' r] eqn:Hc.
    simpl in Hm. subst r. apply check_file_Ok in Hc as (-> & _).
    rewrite Hn. by unfold mbind, M_bind.
  - intros self arg chunk_arg err e Hc. unfold accession2taxid.
    fold (resolve arg (acc_file self)). by rewrite Hc.
Qed.

Lemma parse_stops_at_the_check_witness :
  taxdump (Sample.both "taxdump" "missing.dmp") Sample.fs Demo.empty_store
    None None =
  (["[FATAL] File missing.dmp does not exist"], Raise (SystemExit 1)).
Proof.
  apply (proj1 (parse_stops_at_the_check Sample.fs Demo.empty_store)).
  vm_compute; reflexivity.
Defined.

Lemma setter_accepts (fs : filesystem) (arg : option string) :
  (check_file fs arg).2 = Ok true →
  (_ ← (if arg is None
        then fatal (Some "Please provide an accession file to set")
        else mret ());
   check_file fs arg) = ([], Ok true).
Proof.
  intros Hok. rewrite setter_check.
  destruct (check_file fs arg) as [err r] eqn:Hc. simpl in Hok. subst r.
  pose proof Hc as Hc'. apply check_file_Ok in Hc' as (-> & _ & p & -> & _).
  done.
Qed.

(** The loop reads the mode of the parser and nothing else of it. *)
Lemma rows_same_mode (s1 s2 : Accession2TaxidParser) (store : Store)
    (taxids : gset string) (chunk_size : option Z) (lines : list string) :
  fast s1 = fast s2 →
  ∀ st, rows s1 store taxids chunk_size st lines =
        rows s2 store taxids chunk_size st lines.
Proof.
  intros Hfast. induction lines as [|line lines IH]; intros st; [done|].
  simpl. assert (row s1 store taxids chunk_size st line =
                 row s2 store taxids chunk_size st line) as ->.
  { unfold row. by rewrite Hfast. }
  destruct (row s2 _ _ _ st line) as [[y st']|]; [|done]. by rewrite IH.
Qed.

(** X5.  A path that a setter has accepted is the one the next parse uses
    when it is called without that path: setting the path and then parsing
    gives what parsing with the path as an argument gives. *)
Theorem set_then_parse (fs : filesystem) (store : Store)
    (path : option string) :
  (check_file fs path).2 = Ok true →
  (∀ self names_arg,
     taxdump (set_nodes_file self fs path).1 fs store None names_arg =
     taxdump self fs store path names_arg) ∧
  (∀ self nodes_arg,
     taxdump (set_names_file self fs path).1 fs store nodes_arg None =
     taxdump self fs store nodes_arg path) ∧
  (∀ self chunk_arg,
     accession2taxid (set_accession_file self fs path).1 fs store None
       chunk_arg =
     accession2taxid self fs store path chunk_arg).
Proof.
  intros Hok. pose proof (setter_accepts fs path Hok) as Hset.
  assert (∃ p, path = Some p) as [p ->].
  { destruct path; [by eauto|]. by vm_compute in Hok. }
  unfold set_nodes_file, set_names_file, set_accession_file.
  rewrite Hset. split; [|split]; intros self other; cbn [fst].
  - by unfold taxdump.
  - by unfold taxdump.
  - destruct (check_file fs (Some p)) as [err r] eqn:Hc. simpl in Hok.
    subst r. apply check_file_open in Hc as [lines Hopen].
    rewrite !(accession2taxid_opened _ _ _ _ _ lines) by done.
    unfold effective_chunk. cbn [chunk].
    by rewrite (rows_same_mode _ self).
Qed.

Lemma set_then_parse_witness :
  accession2taxid
    (set_accession_file (Demo.default_mode "cut.gz" 2) Demo.fs
       (Some "three.gz")).1 Demo.fs Demo.taxa_store None None =
  accession2taxid (Demo.default_mode "cut.gz" 2) Demo.fs Demo.taxa_store
    (Some "three.gz") None.
Proof.
  apply (set_then_parse Demo.fs Demo.taxa_store (Some "three.gz")).
  vm_compute; reflexivity.
Defined.

(** ** Lines in the format of the files *)

Lemma append_nil (b : string) : "" +:+ b = b.
Proof. reflexivity. Qed.

Lemma append_cons (x : ascii) (a b : string) :
  String x a +:+ b = String x (a +:+ b).
Proof. reflexivity. Qed.

Ltac unfold_append := rewrite ?append_cons, ?append_nil.

Lemma append_assoc (a b c : string) : (a +:+ b) +:+ c = a +:+ (b +:+ c).
Proof.
  induction a as [|x a IH]; unfold_append; [done|]. by rewrite IH.
Qed.

Lemma split_app (sep : ascii) (a b : string) :
  occurs sep a = false →
  Str.split sep (a +:+ b) =
  match Str.split sep b with
  | f :: fs => (a +:+ f) :: fs
  | [] => [a]
  end.
Proof.
  induction a as [|x a IH]; unfold_append; simpl; intros Ha.
  - destruct (split_cons sep b) as (f & fs & ->). by unfold_append.
  - apply orb_false_iff in Ha as [Hx Ha]. rewrite Hx, (IH Ha).
    destruct (Str.split sep b); by unfold_append.
Qed.

Lemma rstrip_free (c : ascii) (s : string) :
  occurs c s = false → Str.rstrip c s = s.
Proof.
  induction s as [|x s IH]; simpl; intros Hs; [done|].
  apply orb_false_iff in Hs as [Hx Hs]. rewrite (IH Hs), Hx.
  by destruct s.
Qed.

Lemma rstrip_snoc (c : ascii) (s : string) :
  Str.rstrip c (s +:+ String c "") = Str.rstrip c s.
Proof.
  induction s as [|x s IH]; unfold_append; simpl.
  - by rewrite Ascii.eqb_refl.
  - by rewrite IH.
Qed.

(** Stripping stops at a character that is not stripped. *)
Lemma rstrip_app_keep (c t : ascii) (x y : string) :
  Ascii.eqb t c = false →
  Str.rstrip c (x +:+ String t y) = x +:+ String t (Str.rstrip c y).
Proof.
  intros Ht. induction x as [|a x IH]; unfold_append; simpl.
  - rewrite Ht. by destruct (Str.rstrip c y).
  - rewrite IH. by destruct x; unfold_append.
Qed.

Lemma rstrip_app_drop (c : ascii) (x y : string) :
  occurs c x = false → Str.rstrip c y = "" → Str.rstrip c (x +:+ y) = x.
Proof.
  intros Hx Hy. induction x as [|a x IH]; unfold_append; simpl; [done|].
  simpl in Hx. apply orb_false_iff in Hx as [Ha Hx].
  rewrite (IH Hx), Ha. by destruct x.
Qed.

Lemma strip_column_end (c : ascii) (f : string) :
  occurs c f = false → Str.strip c (f +:+ String c "") = f.
Proof.
  intros Hf. unfold Str.strip. destruct f as [|a f]; unfold_append; simpl.
  - by rewrite Ascii.eqb_refl.
  - pose proof Hf as Hf'. simpl in Hf'.
    apply orb_false_iff in Hf' as [Ha _]. rewrite Ha.
    rewrite <- append_cons, rstrip_snoc. by apply rstrip_free.
Qed.

Lemma strip_column (c : ascii) (f : string) :
  occurs c f = false → Str.strip c (String c (f +:+ String c "")) = f.
Proof.
  intros Hf. rewrite <- (strip_column_end c f Hf) at 2.
  unfold Str.strip. simpl. by rewrite Ascii.eqb_refl.
Qed.

Lemma split_nodes_line (id parent rank rest : string) :
  plain id → plain parent → plain rank →
  Str.split Str.PIPE (nodes_line id parent rank rest) =
  (id +:+ String Str.TAB "")
  :: String Str.TAB (parent +:+ String Str.TAB "")
  :: String Str.TAB (rank +:+ String Str.TAB "")
  :: Str.split Str.PIPE rest.
Proof.
  intros [_ Hid] [_ Hparent] [_ Hrank]. unfold nodes_line, bar.
  unfold_append.
  rewrite (split_app _ id) by done. simpl.
  rewrite (split_app _ parent) by done. simpl.
  rewrite (split_app _ rank) by done. simpl.
  destruct (split_cons Str.PIPE rest) as (f & fs & ->). by unfold_append.
Qed.

Lemma split_names_line (id name rest : string) :
  plain id → plain name →
  Str.split Str.PIPE (names_line id name rest) =
  (id +:+ String Str.TAB "")
  :: String Str.TAB (name +:+ String Str.TAB "")
  :: Str.split Str.PIPE rest.
Proof.
  intros [_ Hid] [_ Hname]. unfold names_line, bar. unfold_append.
  rewrite (split_app _ id) by done. simpl.
  rewrite (split_app _ name) by done. simpl.
  destruct (split_cons Str.PIPE rest) as (f & fs & ->). by unfold_append.
Qed.

(** X6.  A line in the format of the dump files is read back column by
    column: from a nodes line that starts with the columns [id], [parent]
    and [rank], none holding a tab or a bar, and whose id is unknown, the
    loop appends the record with exactly these three values and an empty
    name, whatever follows the third column; from such a names line with the
    marker it appends the record with [id] and [name]. *)
Theorem dump_line_is_read_back (ncbi_ids : gset string) (data : list dict)
    (id parent rank name rest : string) :
  plain id → plain parent → plain rank → plain name → id ∉ ncbi_ids →
  nodes_row ncbi_ids data (nodes_line id parent rank rest) =
    Ok (data ++ [dict_of [("ncbi_taxid", id); ("parent_taxid", parent);
                          ("tax_name", ""); ("lineage_level", rank)]]) ∧
  (Str.contains "scientific name" (names_line id name rest) = true →
   names_row ncbi_ids data (names_line id name rest) =
     Ok (data ++ [dict_of [("ncbi_taxid", id); ("tax_name", name)]])).
Proof.
  intros Hid Hparent Hrank Hname Hnew. split.
  - unfold nodes_row. rewrite (split_nodes_line _ _ _ _ Hid Hparent Hrank).
    unfold item. simpl.
    rewrite (strip_column_end _ id), !strip_column;
      [|apply Hrank|apply Hparent|apply Hid].
    by rewrite decide_False.
  - intros Hmarker. unfold names_row. rewrite Hmarker.
    rewrite (split_names_line _ _ _ Hid Hname). unfold item. simpl.
    rewrite (strip_column_end _ id), !strip_column;
      [|apply Hname|apply Hid].
    by rewrite decide_False.
Qed.

Lemma dump_line_is_read_back_witness :
  nodes_row ∅ [] (nodes_line "9606" "9605" "species" "") =
  Ok [dict_of [("ncbi_taxid", "9606"); ("parent_taxid", "9605");
               ("tax_name", ""); ("lineage_level", "species")]].
Proof.
  apply (dump_line_is_read_back ∅ [] "9606" "9605" "species" "Homo sapiens" "");
    try (split; reflexivity).
  apply not_elem_of_empty.
Defined.

Lemma append_nil_r (a : string) : a +:+ "" = a.
Proof. induction a as [|x a IH]; unfold_append; [done|]. by rewrite IH. Qed.

Lemma split_free (sep : ascii) (a : string) :
  occurs sep a = false → Str.split sep a = [a].
Proof.
  induction a as [|x a IH]; simpl; intros Ha; [done|].
  apply orb_false_iff in Ha as [Hx Ha]. by rewrite Hx, (IH Ha).
Qed.

Lemma parsed_accession_line (acc version tax rest : string) :
  occurs Str.TAB acc = false → occurs Str.TAB version = false →
  occurs Str.TAB tax = false → occurs Str.NL tax = false →
  Str.rstrip Str.NL rest = "" ∨ (∃ r, rest = String Str.TAB r) →
  Str.utf8_valid (accession_line acc version tax rest) = true →
  parsed (accession_line acc version tax rest) = Some (acc, tax).
Proof.
  intros Hacc Hversion Htax Hnl Hrest Hvalid. unfold parsed, decode.
  rewrite Hvalid. unfold accession_line.
  rewrite !(rstrip_app_keep Str.NL Str.TAB) by done.
  rewrite (split_app _ acc) by done. simpl.
  rewrite (split_app _ version) by done. simpl.
  destruct Hrest as [Hrest|[r ->]].
  - rewrite (rstrip_app_drop _ tax rest) by done.
    rewrite (split_free _ tax) by done.
    by rewrite !append_nil_r.
  - rewrite (rstrip_app_keep Str.NL Str.TAB) by done.
    rewrite (split_app _ tax) by done. simpl.
    by rewrite !append_nil_r.
Qed.

(** X7.  A line of the accession file is read back: from a file with a
    first line and one line that starts with the columns [acc], [version]
    and [tax], none holding a tab, followed by newlines or by further
    columns, the generator stops normally and yields the one batch with the
    record of [acc] and [tax] when [tax] is known, and no batch otherwise,
    in both modes and whatever the chunk size. *)
Theorem accession_line_is_read_back (self : Accession2TaxidParser)
    (fs : filesystem) (store : Store) (arg : option string)
    (chunk_arg : option Z) (p header acc version tax rest : string) :
  resolve arg (acc_file self) = Some p →
  occurs Str.TAB acc = false → occurs Str.TAB version = false →
  occurs Str.TAB tax = false → occurs Str.NL tax = false →
  Str.rstrip Str.NL rest = "" ∨ (∃ r, rest = String Str.TAB r) →
  Str.utf8_valid (accession_line acc version tax rest) = true →
  let g := accession2taxid self
             (<[p := RegularFile [header; accession_line acc version tax rest]]>
                fs) store arg chunk_arg in
  stopped g = Ok () ∧
  batches g = if decide (tax ∈ knownTaxonomicIds store)
              then [[{| accession := acc; taxid := tax |}]] else [].
Proof.
  intros Hp Hacc Hversion Htax Hnl Hrest Hvalid g. subst g.
  pose proof (parsed_accession_line _ _ _ _ Hacc Hversion Htax Hnl Hrest
                Hvalid) as Hparsed.
  rewrite (accession2taxid_opened _ _ _ _ _
             [header; accession_line acc version tax rest]).
  2:{ rewrite Hp. unfold open. by rewrite lookup_insert_eq. }
  simpl. rewrite (row_parsed _ _ _ _ _ _ _ _ Hparsed).
  unfold keep. rewrite Hparsed. simpl.
  destruct (decide (tax ∈ knownTaxonomicIds store)); [|done].
  unfold left_over, append_entry.
  destruct (fast self); simpl.
  - by case_bool_decide.
  - rewrite decide_False by apply not_elem_of_empty.
    by destruct (accessionExists store acc); simpl; case_bool_decide.
Qed.

Lemma accession_line_is_read_back_witness :
  batches (accession2taxid (Demo.default_mode "one.gz" 500)
             (<["one.gz" :=
                  RegularFile [Demo.header;
                               accession_line "A1" "A1.1" "9606"
                                 (String Str.NL "")]]> Demo.fs)
             Demo.taxa_store None None) = [[Demo.A1]].
Proof.
  pose proof (accession_line_is_read_back (Demo.default_mode "one.gz" 500)
                Demo.fs Demo.taxa_store None None "one.gz" Demo.header
                "A1" "A1.1" "9606" (String Str.NL "")
                eq_refl eq_refl eq_refl eq_refl eq_refl
                (or_introl eq_refl) eq_refl) as [_ H].
  rewrite H. by vm_compute.
Defined.

(** ** The number of batches *)

Section Batches.
Context (self : Accession2TaxidParser) (store : Store).
Context (taxids : gset string) (chunk_size : option Z).

#[local] Abbreviation rows_of := (rows self store taxids chunk_size).
#[local] Abbreviation eligible_from := (eligible_records self store taxids).

(** No batch is yielded inside the loop when the counter cannot reach the
    chunk size. *)
Lemma rows_no_yield (lines : list string) : ∀ st : locals,
  (∀ k : nat,
     (1 ≤ k ≤ length (eligible_from (accessions st) lines))%nat →
     chunk_size ≠ Some (counter st + Z.of_nat k)) →
  (rows_of st lines).1.1 = [].
Proof.
  induction lines as [|line lines IH]; intros st Hk; simpl; [done|].
  destruct (row _ _ _ _ st line) as [[y st1]|] eqn:Hr; [|done].
  apply row_Ok in Hr as [_ Hr]. simpl in Hk.
  destruct (keep _ _ _ _ line) as [[r seen']|].
  - unfold append_entry in Hr. case_bool_decide as Hy.
    { destruct (Hk 1%nat); [simpl; lia|done]. }
    injection Hr as -> ->.
    specialize (IH {| entries :=
                        entries st ++
                        [{| accession := accession r; taxid := taxid r |}];
                      counter := counter st + 1; accessions := seen' |}).
    destruct (rows_of _ lines) as [[bs st2] res]. simpl in *.
    apply IH. intros k Hle.
    replace (counter st + 1 + Z.of_nat k) with (counter st + Z.of_nat (S k))
      by lia.
    apply Hk. lia.
  - destruct Hr as [-> ->]. specialize (IH st Hk).
    by destruct (rows_of st lines) as [[bs st2] res].
Qed.

Lemma concat_length_uniform {A} (c : Z) (bs : list (list A)) :
  Forall (λ b, Z.of_nat (length b) = c) bs →
  Z.of_nat (length (concat bs)) = c * Z.of_nat (length bs).
Proof.
  induction 1 as [|b bs Hb _ IH]; simpl; [lia|].
  rewrite length_app. lia.
Qed.

End Batches.

(** X8.  When the chunk size cannot be reached (there is none, it is zero
    or negative, or it is larger than the number of eligible records), a
    generator that stops normally has yielded all the eligible records as
    one batch, or no batch when there is none; one that raises has yielded
    nothing. *)
Theorem unreachable_chunk_gives_one_batch (self : Accession2TaxidParser)
    (fs : filesystem) (store : Store) (arg : option string)
    (chunk_arg : option Z) (lines : list string) :
  open fs (resolve arg (acc_file self)) = Ok lines →
  let eligible :=
    eligible_records self store (knownTaxonomicIds store) ∅ (readline lines) in
  (∀ c, effective_chunk self chunk_arg = Some c →
        c ≤ 0 ∨ Z.of_nat (length eligible) < c) →
  let g := accession2taxid self fs store arg chunk_arg in
  (stopped g = Ok () →
   batches g = if decide (eligible = []) then [] else [eligible]) ∧
  (∀ e, stopped g = Raise e → batches g = []).
Proof.
  intros Hopen eligible Hchunk g. subst g.
  rewrite (accession2taxid_opened self fs store arg chunk_arg lines Hopen).
  simpl.
  assert ((rows self store (knownTaxonomicIds store)
             (effective_chunk self chunk_arg) start (readline lines)).1.1
          = []) as Hno.
  { apply rows_no_yield. simpl. fold eligible. intros k Hk Heq.
    destruct (Hchunk _ Heq); lia. }
  pose proof (rows_eligible self store (knownTaxonomicIds store)
                (effective_chunk self chunk_arg) (readline lines) start)
    as (lost & Hel & Hlost).
  simpl in Hel. fold eligible in Hel.
  unfold left_over.
  destruct (rows _ _ _ _ _ _) as [[ys st'] res]. simpl in *. subst ys.
  simpl in *. split.
  - intros ->. rewrite (Hlost eq_refl), app_nil_r in Hel. rewrite <- Hel.
    case_bool_decide; by case_decide.
  - by intros e ->.
Qed.

Lemma unreachable_chunk_gives_one_batch_witness :
  batches (accession2taxid (Demo.fast_mode "three.gz" 0) Demo.fs
             Demo.taxa_store None (Some 0)) =
  [[Demo.A1; Demo.A2; Demo.A3]].
Proof.
  destruct (unreachable_chunk_gives_one_batch (Demo.fast_mode "three.gz" 0)
              Demo.fs Demo.taxa_store None (Some 0) Demo.three_lines)
    as [H _].
  - vm_compute; reflexivity.
  - intros c [= <-]. by left.
  - rewrite H; by vm_compute.
Defined.

(** X9.  With an effective chunk size [c >= 1] and lines that are well
    formed, [n] eligible records are yielded in [ceil(n / c)] batches. *)
Theorem number_of_batches (self : Accession2TaxidParser) (fs : filesystem)
    (store : Store) (arg : option string) (chunk_arg : option Z)
    (lines : list string) (c : Z) :
  open fs (resolve arg (acc_file self)) = Ok lines →
  Forall well_formed (readline lines) →
  effective_chunk self chunk_arg = Some c → 1 ≤ c →
  let n := Z.of_nat (length (eligible_records self store
                               (knownTaxonomicIds store) ∅ (readline lines))) in
  Z.of_nat (length (batches (accession2taxid self fs store arg chunk_arg))) =
  (n + c - 1) / c.
Proof.
  intros Hopen Hwf Hc Hpos n. subst n.
  rewrite (accession2taxid_opened self fs store arg chunk_arg lines Hopen).
  simpl. rewrite Hc.
  pose proof (rows_sizes self store (knownTaxonomicIds store) (Some c) c
                (readline lines) start eq_refl Hpos eq_refl) as [Hsz Hleft];
    [simpl; lia|].
  pose proof (rows_eligible self store (knownTaxonomicIds store) (Some c)
                (readline lines) start) as (lost & Hel & Hlost).
  pose proof (rows_well_formed self store (knownTaxonomicIds store) (Some c)
                (readline lines) start Hwf) as Hstop.
  unfold left_over.
  destruct (rows _ _ _ _ _ _) as [[ys st'] res]. simpl in *. subst res.
  rewrite (Hlost eq_refl), app_nil_r in Hel. rewrite Hel.
  rewrite !length_app, !Nat2Z.inj_add, (concat_length_uniform c) by done.
  case_bool_decide as Hne; simpl.
  - assert (1 ≤ Z.of_nat (length (entries st'))).
    { destruct (entries st'); [done|]. simpl. lia. }
    apply (Z.div_unique _ _ _ (Z.of_nat (length (entries st')) - 1)); lia.
  - assert (entries st' = []) as ->.
    { destruct (entries st'); [done|]. by destruct Hne. }
    simpl. apply (Z.div_unique _ _ _ (c - 1)); lia.
Qed.

Lemma number_of_batches_witness :
  Z.of_nat (length (batches (accession2taxid (Demo.fast_mode "three.gz" 2)
                               Demo.fs Demo.taxa_store None (Some 2)))) = 2.
Proof.
  rewrite (number_of_batches (Demo.fast_mode "three.gz" 2) Demo.fs
             Demo.taxa_store None (Some 2) Demo.three_lines 2).
  - by vm_compute.
  - vm_compute; reflexivity.
  - apply (bool_decide_unpack _). by vm_compute.
  - reflexivity.
  - lia.
Defined.

(** ** The two modes *)

Lemma rows_fast_store (self : Accession2TaxidParser) (store1 store2 : Store)
    (taxids : gset string) (chunk_size : option Z) (lines : list string) :
  fast self = true →
  ∀ st, rows self store1 taxids chunk_size st lines =
        rows self store2 taxids chunk_size st lines.
Proof.
  intros Hfast. induction lines as [|line lines IH]; intros st; [done|].
  simpl. assert (row self store1 taxids chunk_size st line =
                 row self store2 taxids chunk_size st line) as ->.
  { unfold row. by rewrite Hfast. }
  destruct (row self store2 _ _ st line) as [[y st']|]; [|done].
  by rewrite IH.
Qed.

(** X10.  Fast mode never asks the store for an accession: two stores with
    the same taxonomic ids give the same batches, the same outcome and the
    same messages, whatever accessions they hold. *)
Theorem fast_mode_ignores_stored_accessions (self : Accession2TaxidParser)
    (fs : filesystem) (store1 store2 : Store) (arg : option string)
    (chunk_arg : option Z) :
  fast self = true →
  knownTaxonomicIds store1 = knownTaxonomicIds store2 →
  accession2taxid self fs store1 arg chunk_arg =
  accession2taxid self fs store2 arg chunk_arg.
Proof.
  intros Hfast Hids. unfold accession2taxid. rewrite Hids.
  destruct (check_file fs _) as [err [b|e]]; [|done].
  destruct (open fs _) as [f|]; [|done].
  by rewrite (rows_fast_store self store1 store2).
Qed.

Lemma fast_mode_ignores_stored_accessions_witness :
  accession2taxid (Demo.fast_mode "twice.gz" 500) Demo.fs Demo.taxa_store
    None None =
  accession2taxid (Demo.fast_mode "twice.gz" 500) Demo.fs Demo.full_store
    None None.
Proof.
  apply (fast_mode_ignores_stored_accessions (Demo.fast_mode "twice.gz" 500)
           Demo.fs Demo.taxa_store Demo.full_store None None);
    reflexivity.
Defined.

Lemma filter_length_le_1_NoDup {A B} `{EqDecision B} (f : A → B)
    (l : list A) :
  (∀ b, (length (filter (λ x, f x = b) l) ≤ 1)%nat) → NoDup (f <$> l).
Proof.
  induction l as [|x l IH]; intros Hcount; [constructor|].
  simpl. constructor.
  - intros (y & Hy & Hin)%list_elem_of_fmap.
    specialize (Hcount (f x)). rewrite filter_cons_True in Hcount by done.
    assert (y ∈ filter (λ z, f z = f x) l) as Hy'.
    { by apply list_elem_of_filter. }
    destruct (filter (λ z, f z = f x) l); [by apply elem_of_nil in Hy'|].
    simpl in Hcount. lia.
  - apply IH. intros b. specialize (Hcount b).
    rewrite filter_cons in Hcount. case_decide; simpl in Hcount; lia.
Qed.

(** X11.  In default mode an accession that the store does not have is
    yielded at most once, on every input; when the store has none of the
    accessions, the accessions of the yielded records are pairwise
    distinct. *)
Theorem new_accession_at_most_once (self : Accession2TaxidParser)
    (fs : filesystem) (store : Store) (arg : option string)
    (chunk_arg : option Z) :
  fast self = false →
  let g := accession2taxid self fs store arg chunk_arg in
  (∀ a, accessionExists store a = false → (emitted a (batches g) ≤ 1)%nat) ∧
  ((∀ a, accessionExists store a = false) →
   NoDup (accession <$> concat (batches g))).
Proof.
  intros Hfast g.
  assert (∀ a, accessionExists store a = false →
               (emitted a (batches g) ≤ 1)%nat) as Hone.
  { intros a Ha. unfold emitted. subst g.
    destruct (open fs (resolve arg (acc_file self))) as [lines|e] eqn:Hopen.
    2:{ destruct (accession2taxid_unopened self fs store arg chunk_arg e
                    Hopen) as [-> _]. simpl. lia. }
    destruct (accession2taxid_concat self fs store arg chunk_arg lines Hopen)
      as (lost & Hel & _).
    pose proof (count_default_new self store (knownTaxonomicIds store) a
                  (readline lines) ∅ Hfast Ha) as Hcount.
    rewrite Hel, filter_app, length_app in Hcount.
    specialize (Hcount (not_elem_of_empty a)). lia. }
  split; [done|].
  intros Hnone. apply filter_length_le_1_NoDup. intros a.
  by apply Hone.
Qed.

Lemma new_accession_at_most_once_witness :
  NoDup (accession <$>
         concat (batches (accession2taxid (Demo.default_mode "twice.gz" 1)
                            Demo.fs Demo.taxa_store None (Some 1)))).
Proof.
  by apply (new_accession_at_most_once (Demo.default_mode "twice.gz" 1)
              Demo.fs Demo.taxa_store None (Some 1) eq_refl).
Defined.

Lemma row_malformed_same (s1 s2 : Accession2TaxidParser)
    (store1 store2 : Store) (taxids : gset string) (chunk_size : option Z)
    (st1 st2 : locals) (line : string) :
  parsed line = None →
  ∃ e, row s1 store1 taxids chunk_size st1 line = Raise e ∧
       row s2 store2 taxids chunk_size st2 line = Raise e.
Proof.
  unfold row, parsed, decode.
  destruct (Str.utf8_valid line); [|by eexists]. simpl.
  destruct (Str.split Str.TAB (Str.rstrip Str.NL line))
    as [|a [|b [|t l]]]; try done; by eexists.
Qed.

(** Where default mode skips no line, the two modes yield the same batches
    and stop the same way. *)
Lemma rows_modes (s1 s2 : Accession2TaxidParser) (store : Store)
    (taxids : gset string) (chunk_size : option Z) (lines : list string) :
  fast s1 = false → fast s2 = true →
  ∀ st1 st2,
    unskipped store taxids (accessions st1) lines →
    entries st1 = entries st2 → counter st1 = counter st2 →
    (rows s1 store taxids chunk_size st1 lines).1.1 =
      (rows s2 store taxids chunk_size st2 lines).1.1 ∧
    entries (rows s1 store taxids chunk_size st1 lines).1.2 =
      entries (rows s2 store taxids chunk_size st2 lines).1.2 ∧
    (rows s1 store taxids chunk_size st1 lines).2 =
      (rows s2 store taxids chunk_size st2 lines).2.
Proof.
  intros Hf1 Hf2. induction lines as [|line lines IH];
    intros st1 st2 Hun Hen Hco; simpl; [done|].
  simpl in Hun. destruct (parsed line) as [[acc tax]|] eqn:Hp.
  2:{ destruct (row_malformed_same s1 s2 store store taxids chunk_size
                  st1 st2 line Hp) as (e & -> & ->). done. }
  rewrite !(row_parsed _ _ _ _ _ _ _ _ Hp). unfold keep. rewrite Hp, Hf1, Hf2.
  destruct (decide (tax ∈ taxids)).
  - destruct Hun as [Hnew Hun]. rewrite decide_False by done. simpl.
    unfold append_entry. rewrite Hen, Hco.
    case_bool_decide.
    + specialize (IH {| entries := []; counter := 0;
                        accessions := if accessionExists store acc
                                      then accessions st1
                                      else {[acc]} ∪ accessions st1 |}
                     {| entries := []; counter := 0;
                        accessions := accessions st2 |} Hun eq_refl eq_refl).
      destruct (rows s1 _ _ _ _ lines) as [[b1 t1] r1].
      destruct (rows s2 _ _ _ _ lines) as [[b2 t2] r2]. simpl in *.
      destruct IH as (-> & -> & ->). done.
    + specialize (IH {| entries := entries st2 ++ [{| accession := acc; taxid := tax |}];
                        counter := counter st2 + 1;
                        accessions := if accessionExists store acc
                                      then accessions st1
                                      else {[acc]} ∪ accessions st1 |}
                     {| entries := entries st2 ++ [{| accession := acc; taxid := tax |}];
                        counter := counter st2 + 1;
                        accessions := accessions st2 |} Hun eq_refl eq_refl).
      destruct (rows s1 _ _ _ _ lines) as [[b1 t1] r1].
      destruct (rows s2 _ _ _ _ lines) as [[b2 t2] r2]. simpl in *.
      destruct IH as (-> & -> & ->). done.
  - specialize (IH st1 st2 Hun Hen Hco).
    destruct (rows s1 _ _ _ _ lines) as [[b1 t1] r1].
    destruct (rows s2 _ _ _ _ lines) as [[b2 t2] r2]. simpl in *.
    destruct IH as (-> & -> & ->). done.
Qed.

Lemma modes_agree (s1 s2 : Accession2TaxidParser) (fs : filesystem)
    (store : Store) (arg : option string) (chunk_arg : option Z)
    (lines : list string) :
  fast s1 = false → fast s2 = true →
  acc_file s1 = acc_file s2 → chunk s1 = chunk s2 →
  open fs (resolve arg (acc_file s1)) = Ok lines →
  unskipped store (knownTaxonomicIds store) ∅ (readline lines) →
  batches (accession2taxid s1 fs store arg chunk_arg) =
    batches (accession2taxid s2 fs store arg chunk_arg) ∧
  stopped (accession2taxid s1 fs store arg chunk_arg) =
    stopped (accession2taxid s2 fs store arg chunk_arg).
Proof.
  intros Hf1 Hf2 Hfile Hchunk Hopen Hun.
  rewrite (accession2taxid_opened s1 fs store arg chunk_arg lines Hopen).
  rewrite Hfile in Hopen.
  rewrite (accession2taxid_opened s2 fs store arg chunk_arg lines Hopen).
  simpl. unfold effective_chunk. rewrite Hchunk.
  destruct (rows_modes s1 s2 store (knownTaxonomicIds store)
              (if falsy chunk_arg then chunk s2 else chunk_arg)
              (readline lines) Hf1 Hf2 start start Hun eq_refl eq_refl)
    as (Hb & He & Hr).
  unfold left_over. rewrite Hb, He, Hr. done.
Qed.

Lemma known_accessions_cons (taxids : gset string) (line : string)
    (lines : list string) :
  known_accessions taxids (line :: lines) =
  match parsed line with
  | Some (acc, tax) =>
      if decide (tax ∈ taxids) then acc :: known_accessions taxids lines
      else known_accessions taxids lines
  | None => known_accessions taxids lines
  end.
Proof.
  unfold known_accessions. simpl.
  destruct (parsed line) as [[acc tax]|]; [|done].
  by destruct (decide (tax ∈ taxids)).
Qed.

Lemma unskipped_NoDup (store : Store) (taxids : gset string)
    (lines : list string) : ∀ seen_so_far : gset string,
  NoDup (known_accessions taxids lines) →
  (∀ a, a ∈ seen_so_far → a ∉ known_accessions taxids lines) →
  unskipped store taxids seen_so_far lines.
Proof.
  induction lines as [|line lines IH]; intros seen_so_far Hnd Hseen; [done|].
  simpl. rewrite known_accessions_cons in Hnd, Hseen.
  destruct (parsed line) as [[acc tax]|]; [|done].
  destruct (decide (tax ∈ taxids)); [|by apply IH].
  apply NoDup_cons in Hnd as [Hacc Hnd]. split.
  - intros Hin. apply (Hseen _ Hin). by left.
  - apply IH; [done|]. intros a Ha Hin.
    destruct (accessionExists store acc).
    + apply (Hseen _ Ha). by right.
    + apply elem_of_union in Ha as [->%elem_of_singleton|Ha]; [done|].
      apply (Hseen _ Ha). by right.
Qed.

Lemma unskipped_stored (store : Store) (taxids : gset string)
    (lines : list string) :
  Forall (λ a, accessionExists store a = true)
    (known_accessions taxids lines) →
  unskipped store taxids ∅ lines.
Proof.
  induction lines as [|line lines IH]; intros Hall; [done|].
  simpl. rewrite known_accessions_cons in Hall.
  destruct (parsed line) as [[acc tax]|]; [|done].
  destruct (decide (tax ∈ taxids)); [|by apply IH].
  apply Forall_cons in Hall as [-> Hall].
  split; [apply not_elem_of_empty|by apply IH].
Qed.

(** X12.  When no accession is on two lines with a known taxonomic id, the
    two modes yield the same batches and stop the same way: fast mode loses
    nothing on a file without repeated accessions. *)
Theorem modes_agree_without_duplicates (s1 s2 : Accession2TaxidParser)
    (fs : filesystem) (store : Store) (arg : option string)
    (chunk_arg : option Z) (lines : list string) :
  fast s1 = false → fast s2 = true →
  acc_file s1 = acc_file s2 → chunk s1 = chunk s2 →
  open fs (resolve arg (acc_file s1)) = Ok lines →
  NoDup (known_accessions (knownTaxonomicIds store) (readline lines)) →
  batches (accession2taxid s1 fs store arg chunk_arg) =
    batches (accession2taxid s2 fs store arg chunk_arg) ∧
  stopped (accession2taxid s1 fs store arg chunk_arg) =
    stopped (accession2taxid s2 fs store arg chunk_arg).
Proof.
  intros Hf1 Hf2 Hfile Hchunk Hopen Hnd.
  apply (modes_agree s1 s2 fs store arg chunk_arg lines); try done.
  apply unskipped_NoDup; [done|]. intros a Ha. by apply elem_of_empty in Ha.
Qed.

Lemma modes_agree_without_duplicates_witness :
  batches (accession2taxid (Demo.default_mode "three.gz" 2) Demo.fs
             Demo.full_store None None) =
  batches (accession2taxid (Demo.fast_mode "three.gz" 2) Demo.fs
             Demo.full_store None None).
Proof.
  apply (modes_agree_without_duplicates (Demo.default_mode "three.gz" 2)
           (Demo.fast_mode "three.gz" 2) Demo.fs Demo.full_store None None
           Demo.three_lines); try reflexivity.
  apply (bool_decide_unpack _). by vm_compute.
Defined.

(** X13.  When the store has every accession that is on a line with a known
    taxonomic id, default mode yields what fast mode yields: the lookup of
    the accession filters nothing, and a second pass over a file that has
    been stored yields every record again. *)
Theorem stored_file_is_yielded_again (s1 s2 : Accession2TaxidParser)
    (fs : filesystem) (store : Store) (arg : option string)
    (chunk_arg : option Z) (lines : list string) :
  fast s1 = false → fast s2 = true →
  acc_file s1 = acc_file s2 → chunk s1 = chunk s2 →
  open fs (resolve arg (acc_file s1)) = Ok lines →
  Forall (λ a, accessionExists store a = true)
    (known_accessions (knownTaxonomicIds store) (readline lines)) →
  batches (accession2taxid s1 fs store arg chunk_arg) =
    batches (accession2taxid s2 fs store arg chunk_arg) ∧
  stopped (accession2taxid s1 fs store arg chunk_arg) =
    stopped (accession2taxid s2 fs store arg chunk_arg).
Proof.
  intros Hf1 Hf2 Hfile Hchunk Hopen Hall.
  apply (modes_agree s1 s2 fs store arg chunk_arg lines); try done.
  by apply unskipped_stored.
Qed.

Lemma stored_file_is_yielded_again_witness :
  batches (accession2taxid (Demo.default_mode "twice.gz" 2) Demo.fs
             Demo.full_store None None) =
  batches (accession2taxid (Demo.fast_mode "twice.gz" 2) Demo.fs
             Demo.full_store None None).
Proof.
  apply (stored_file_is_yielded_again (Demo.default_mode "twice.gz" 2)
           (Demo.fast_mode "twice.gz" 2) Demo.fs Demo.full_store None None
           Demo.twice_lines); try reflexivity.
  apply (bool_decide_unpack _). by vm_compute.
Defined.

(** ** Lines that are ignored *)

Lemma rows_ignored (self : Accession2TaxidParser) (store : Store)
    (taxids : gset string) (chunk_size : option Z) (lines : list string) :
  ∀ st, rows self store taxids chunk_size st
          (filter (λ l, ¬ ignored taxids l) lines) =
        rows self store taxids chunk_size st lines.
Proof.
  induction lines as [|line lines IH]; intros st; [done|].
  rewrite filter_cons. destruct (decide (¬ ignored taxids line)) as [Hk|Hi].
  - simpl. destruct (row _ _ _ _ st line) as [[y st']|]; [|done].
    by rewrite IH.
  - apply dec_stable in Hi. rewrite IH. simpl. unfold ignored in Hi.
    destruct (parsed line) as [[acc tax]|] eqn:Hp; [|done].
    rewrite (row_parsed _ _ _ _ _ _ _ _ Hp). unfold keep. rewrite Hp.
    rewrite decide_False by done.
    by destruct (rows _ _ _ _ st lines) as [[bs st'] r].
Qed.

(** X14.  Lines that decode, have three columns and an unknown taxonomic id
    leave no trace: the file without them gives the same batches, cut at the
    same places, the same accessions seen and the same outcome. *)
Theorem unknown_taxid_lines_leave_no_trace (self : Accession2TaxidParser)
    (fs : filesystem) (store : Store) (arg : option string)
    (chunk_arg : option Z) (p header : string) (data : list string) :
  resolve arg (acc_file self) = Some p →
  accession2taxid self
    (<[p := RegularFile
              (header :: filter (λ l, ¬ ignored (knownTaxonomicIds store) l)
                           data)]> fs) store arg chunk_arg =
  accession2taxid self (<[p := RegularFile (header :: data)]> fs)
    store arg chunk_arg.
Proof.
  intros Hp.
  assert (∀ l, open (<[p := RegularFile l]> fs)
                 (resolve arg (acc_file self)) = Ok l) as Hopen.
  { intros l. rewrite Hp. unfold open. by rewrite lookup_insert_eq. }
  rewrite !(accession2taxid_opened _ _ _ _ _ _ (Hopen _)). simpl.
  by rewrite rows_ignored.
Qed.

Lemma unknown_taxid_lines_leave_no_trace_witness :
  accession2taxid (Demo.default_mode "twice.gz" 2)
    (<["twice.gz" :=
         RegularFile
           (Demo.header ::
            filter (λ l, ¬ ignored (knownTaxonomicIds Demo.taxa_store) l)
              (tail Demo.twice_lines))]> Demo.fs)
    Demo.taxa_store None None =
  accession2taxid (Demo.default_mode "twice.gz" 2)
    (<["twice.gz" := RegularFile (Demo.header :: tail Demo.twice_lines)]>
       Demo.fs)
    Demo.taxa_store None None.
Proof.
  apply (unknown_taxid_lines_leave_no_trace (Demo.default_mode "twice.gz" 2)
           Demo.fs Demo.taxa_store None None "twice.gz").
  reflexivity.
Defined.

(** ** Files in the same order *)

(** X15.  When the nodes lines and the names lines that are read list the
    same ids in the same order, the merge by position is a join by id: there
    is one record for each nodes line read, and record [i] joins the [i]-th
    nodes line with the names line of the same id. *)
Theorem aligned_files_join_by_id (self : TaxaDumpParser) (fs : filesystem)
    (store : Store) (nodes_arg names_arg : option string)
    (nodes_lines names_lines : list string) :
  open fs (resolve nodes_arg (nodes_file self)) = Ok nodes_lines →
  open fs (resolve names_arg (names_file self)) = Ok names_lines →
  Forall (nodes_line_ok (knownTaxonomicIds store)) nodes_lines →
  Forall (names_line_ok (knownTaxonomicIds store)) names_lines →
  let nodes_read :=
    filter (λ l, row_id l ∉ knownTaxonomicIds store) nodes_lines in
  let names_read := filter (names_kept (knownTaxonomicIds store)) names_lines in
  row_id <$> nodes_read = row_id <$> names_read →
  ∃ merged,
    taxdump self fs store nodes_arg names_arg = ([], Ok merged) ∧
    length merged = length nodes_read ∧
    ∀ i nodes_line, nodes_read !! i = Some nodes_line →
      ∃ names_line,
        names_read !! i = Some names_line ∧
        row_id names_line = row_id nodes_line ∧
        merged !! i =
          Some (names_record names_line ∪ nodes_record nodes_line) ∧
        (names_record names_line ∪ nodes_record nodes_line) !! "ncbi_taxid" =
          Some (row_id nodes_line).
Proof.
  intros Hn Hm Hnodes Hnames nodes_read names_read Hids.
  exists (merge (nodes_record <$> nodes_read) (names_record <$> names_read)).
  split.
  { rewrite (taxdump_opened _ _ _ _ _ _ _ Hn Hm).
    unfold parse_nodes, parse_names.
    by rewrite parse_nodes_ok, parse_names_ok. }
  assert (length nodes_read = length names_read) as Hlen.
  { by rewrite <- (length_fmap row_id nodes_read), Hids, length_fmap. }
  split.
  { rewrite merge_length, !length_fmap. lia. }
  intros i nodes_line Hi.
  destruct (lookup_lt_is_Some_2 names_read i) as [names_line Hj].
  { rewrite <- Hlen. by eapply lookup_lt_Some. }
  assert (row_id names_line = row_id nodes_line) as Hid.
  { assert ((row_id <$> names_read) !! i = Some (row_id names_line)) as H1
      by (by rewrite list_lookup_fmap, Hj).
    rewrite <- Hids, list_lookup_fmap, Hi in H1. by injection H1. }
  exists names_line. split; [done|]. split; [done|]. split.
  - by rewrite merge_lookup, !list_lookup_fmap, Hi, Hj.
  - rewrite lookup_union_l'; unfold names_record;
      destruct (dict_of_names_lookup (row_id names_line)
                  (Str.strip Str.TAB
                     (default "" (Str.split Str.PIPE names_line !! 1%nat))))
        as (-> & _); by rewrite ?Hid.
Qed.

Lemma aligned_files_join_by_id_witness :
  ∃ merged,
    taxdump (Sample.both "nodes.dmp" "names.dmp") Sample.fs Demo.empty_store
      None None = ([], Ok merged) ∧
    length merged = 2%nat.
Proof.
  destruct (aligned_files_join_by_id (Sample.both "nodes.dmp" "names.dmp")
              Sample.fs Demo.empty_store None None
              Demo.nodes_lines Demo.names_lines)
    as (merged & Hm & Hlen & _).
  - vm_compute; reflexivity.
  - vm_compute; reflexivity.
  - apply (bool_decide_unpack _). by vm_compute.
  - apply (bool_decide_unpack _). by vm_compute.
  - vm_compute; reflexivity.
  - exists merged. split; [exact Hm|]. rewrite Hlen. by vm_compute.
Defined.

(** ** stderr and SystemExit *)

Lemma check_file_trace (fs : filesystem) (element : option string) :
  exits_through_fatal (check_file fs element).1 (check_file fs element).2 ∨
  check_file fs element = ([], Ok true).
Proof.
  unfold check_file, fatal, exits_through_fatal.
  destruct element as [p|]; [|left; by eexists].
  destruct (negb (os_path_exists fs p)); [left; by eexists|].
  destruct (negb (os_path_isfile fs p)); [left; by eexists|by right].
Qed.

Lemma for_each_raises {S A} (body : S → A → res S) (P : exn → Prop) :
  (∀ s x e, body s x = Raise e → P e) →
  ∀ l s e, for_each body s l = Raise e → P e.
Proof.
  intros Hbody l. induction l as [|x l IH]; intros s e; simpl; [done|].
  destruct (body s x) as [s'|e'] eqn:Hx; [by apply IH|].
  intros [= <-]. by eapply Hbody.
Qed.

Lemma parse_nodes_raises_IndexError (ncbi_ids : gset string)
    (lines : list string) (e : exn) :
  parse_nodes ncbi_ids lines = Raise e → e = IndexError.
Proof.
  apply (for_each_raises _ (λ e, e = IndexError)).
  intros data line e'. rewrite nodes_row_cases.
  repeat case_decide; congruence.
Qed.

Lemma parse_names_raises_IndexError (ncbi_ids : gset string)
    (lines : list string) (e : exn) :
  parse_names ncbi_ids lines = Raise e → e = IndexError.
Proof.
  apply (for_each_raises _ (λ e, e = IndexError)).
  intros data line e'. rewrite names_row_cases.
  repeat case_decide; congruence.
Qed.

Lemma rows_raises (self : Accession2TaxidParser) (store : Store)
    (taxids : gset string) (chunk_size : option Z) (lines : list string) :
  ∀ st e, (rows self store taxids chunk_size st lines).2 = Raise e →
          e = UnicodeDecodeError ∨ e = IndexError.
Proof.
  induction lines as [|line lines IH]; intros st e; simpl; [done|].
  destruct (row _ _ _ _ st line) as [[y st1]|e1] eqn:Hr; simpl.
  - specialize (IH st1 e).
    by destruct (rows _ _ _ _ st1 lines) as [[bs st2] r].
  - intros [= <-]. destruct (parsed line) as [[acc tax]|] eqn:Hp.
    + by rewrite (row_parsed _ _ _ _ _ _ _ _ Hp) in Hr.
    + destruct (row_malformed self store taxids chunk_size st line Hp)
        as [H|H]; rewrite H in Hr; injection Hr as <-; by eauto.
Qed.

(** X16.  The parsers and the setters print on stderr exactly when they exit
    through [fatal]: then there is one line, it starts with [[FATAL] ], and
    the exception is [SystemExit] with status 1.  In every other outcome (a
    result, [IndexError], [UnicodeDecodeError]) stderr is empty. *)
Theorem stderr_iff_fatal_exit (fs : filesystem) (store : Store) :
  (∀ self nodes_arg names_arg,
     let out := taxdump self fs store nodes_arg names_arg in
     exits_through_fatal out.1 out.2 ∨ silent out.1 out.2) ∧
  (∀ self arg chunk_arg,
     let g := accession2taxid self fs store arg chunk_arg in
     exits_through_fatal (stderr g) (stopped g) ∨
     silent (stderr g) (stopped g)) ∧
  (∀ self arg,
     let out := (set_nodes_file self fs arg).2 in
     exits_through_fatal out.1 out.2 ∨ out = ([], Ok true)) ∧
  (∀ self arg,
     let out := (set_names_file self fs arg).2 in
     exits_through_fatal out.1 out.2 ∨ out = ([], Ok true)) ∧
  (∀ self arg,
     let out := (set_accession_file self fs arg).2 in
     exits_through_fatal out.1 out.2 ∨ out = ([], Ok true)).
Proof.
  assert (∀ arg,
            let checked :=
              (_ ← (if arg is None
                    then fatal (Some "Please provide an accession file to set")
                    else mret ());
               check_file fs arg) in
            exits_through_fatal checked.1 checked.2 ∨
            checked = ([], Ok true)) as Hsetter.
  { intros arg. simpl. rewrite setter_check.
    destruct arg as [p|]; [apply check_file_trace|].
    left. by eexists. }
  split; [|split; [|split; [|split]]].
  - intros self nodes_arg names_arg out. subst out.
    destruct (open fs (resolve names_arg (names_file self)))
      as [names_lines|e1] eqn:Hm.
    2:{ left. unfold taxdump. fold (resolve names_arg (names_file self)).
        destruct (check_file_trace fs (resolve names_arg (names_file self)))
          as [(msg & H1 & H2)|Hok].
        - destruct (check_file fs _) as [err r]. simpl in *. subst.
          by exists msg.
        - apply check_file_open in Hok as [lines Hok]. congruence. }
    destruct (open fs (resolve nodes_arg (nodes_file self)))
      as [nodes_lines|e2] eqn:Hn.
    2:{ left. unfold taxdump. fold (resolve names_arg (names_file self)).
        fold (resolve nodes_arg (nodes_file self)).
        rewrite (open_check_file _ _ _ Hm).
        destruct (check_file_trace fs (resolve nodes_arg (nodes_file self)))
          as [(msg & H1 & H2)|Hok].
        - destruct (check_file fs (resolve nodes_arg _)) as [err r].
          simpl in *. subst. by exists msg.
        - apply check_file_open in Hok as [lines Hok]. congruence. }
    right. rewrite (taxdump_opened _ _ _ _ _ _ _ Hn Hm). split; [done|].
    simpl. intros status.
    destruct (parse_nodes _ nodes_lines) as [nd|e] eqn:Hpn; simpl.
    2:{ apply parse_nodes_raises_IndexError in Hpn as ->. done. }
    destruct (parse_names _ names_lines) as [md|e] eqn:Hpm; simpl; [done|].
    apply parse_names_raises_IndexError in Hpm as ->. done.
  - intros self arg chunk_arg g. subst g.
    destruct (open fs (resolve arg (acc_file self))) as [lines|e] eqn:Hopen.
    + right.
      rewrite (accession2taxid_opened self fs store arg chunk_arg lines Hopen).
      simpl. split; [done|]. intros status Hstop.
      by apply rows_raises in Hstop as [?|?].
    + left. unfold accession2taxid. fold (resolve arg (acc_file self)).
      destruct (check_file_trace fs (resolve arg (acc_file self)))
        as [(msg & H1 & H2)|Hok].
      * destruct (check_file fs _) as [err r]. simpl in *. subst.
        by exists msg.
      * apply check_file_open in Hok as [lines Hok]. congruence.
  - intros self arg out. subst out. unfold set_nodes_file.
    destruct (Hsetter arg) as [(msg & H1 & H2)|H].
    + destruct (_ ≫= _) as [err r]. simpl in *. subst. left. by exists msg.
    + simpl in H. rewrite H. by right.
  - intros self arg out. subst out. unfold set_names_file.
    destruct (Hsetter arg) as [(msg & H1 & H2)|H].
    + destruct (_ ≫= _) as [err r]. simpl in *. subst. left. by exists msg.
    + simpl in H. rewrite H. by right.
  - intros self arg out. subst out. unfold set_accession_file.
    destruct (Hsetter arg) as [(msg & H1 & H2)|H].
    + destruct (_ ≫= _) as [err r]. simpl in *. subst. left. by exists msg.
    + simpl in H. rewrite H. by right.
Qed.

(** ** The accessions that are yielded *)

Lemma eligible_from_lines (self : Accession2TaxidParser) (store : Store)
    (taxids : gset string) (lines : list string) (r : AccessionRecord) :
  ∀ seen_so_far,
    r ∈ eligible_records self store taxids seen_so_far lines →
    ∃ line, line ∈ lines ∧ parsed line = Some (accession r, taxid r) ∧
            taxid r ∈ taxids.
Proof.
  induction lines as [|line lines IH]; intros seen_so_far Hr; simpl in Hr.
  - by apply elem_of_nil in Hr.
  - destruct (keep _ _ _ _ line) as [[r' seen']|] eqn:Hk.
    + apply elem_of_cons in Hr as [->|Hr].
      * apply keep_Some in Hk as (Hp & Hknown & _).
        exists line. split; [by left|done].
      * destruct (IH _ Hr) as (l & Hl & H). exists l. split; [by right|done].
    + destruct (IH _ Hr) as (l & Hl & H). exists l. split; [by right|done].
Qed.

Lemma count_le_lines_for (self : Accession2TaxidParser) (store : Store)
    (taxids : gset string) (a : string) (lines : list string) :
  ∀ seen_so_far,
    (length (filter (λ r, accession r = a)
               (eligible_records self store taxids seen_so_far lines))
     ≤ lines_for taxids a lines)%nat.
Proof.
  induction lines as [|line lines IH]; intros seen_so_far; [done|].
  rewrite lines_for_cons. simpl.
  destruct (keep _ _ _ _ line) as [[r seen']|] eqn:Hk.
  - rewrite count_a_cons, (keep_eligible_for _ _ _ _ _ _ _ _ Hk).
    specialize (IH seen'). lia.
  - specialize (IH seen_so_far). lia.
Qed.

(** X17.  An accession is yielded only if it is on a line with a known
    taxonomic id; and when the lines after the first decode and have three
    columns, every accession that is on such a line is yielded at least
    once, in both modes. *)
Theorem yielded_accessions (self : Accession2TaxidParser) (fs : filesystem)
    (store : Store) (arg : option string) (chunk_arg : option Z)
    (lines : list string) (a : string) :
  open fs (resolve arg (acc_file self)) = Ok lines →
  let g := accession2taxid self fs store arg chunk_arg in
  let n := lines_for (knownTaxonomicIds store) a (readline lines) in
  ((1 ≤ emitted a (batches g))%nat → (1 ≤ n)%nat) ∧
  (Forall well_formed (readline lines) → (1 ≤ n)%nat →
   (1 ≤ emitted a (batches g))%nat).
Proof.
  intros Hopen g n. unfold emitted. subst g n. split.
  - destruct (accession2taxid_concat self fs store arg chunk_arg lines Hopen)
      as (lost & Hel & _).
    pose proof (count_le_lines_for self store (knownTaxonomicIds store) a
                  (readline lines) ∅) as Hle.
    rewrite Hel, filter_app, length_app in Hle. lia.
  - intros Hwf Hn.
    destruct (accession2taxid_well_formed self fs store arg chunk_arg lines
                Hopen Hwf) as [_ ->].
    destruct (fast self) eqn:Hfast.
    + by rewrite count_fast.
    + destruct (accessionExists store a) eqn:Ha.
      * rewrite count_default_stored; [done..|]. apply not_elem_of_empty.
      * rewrite count_default_new; [lia|done..|]. apply not_elem_of_empty.
Qed.

Lemma yielded_accessions_witness :
  (1 ≤ emitted "A1"
         (batches (accession2taxid (Demo.default_mode "twice.gz" 2) Demo.fs
                     Demo.taxa_store None None)))%nat.
Proof.
  apply (yielded_accessions (Demo.default_mode "twice.gz" 2) Demo.fs
           Demo.taxa_store None None Demo.twice_lines "A1").
  - vm_compute; reflexivity.
  - apply (bool_decide_unpack _). by vm_compute.
  - vm_compute. lia.
Defined.

(** X18.  No record is made up: every yielded record holds column 0 and
    column 2 of one line after the first line of the file, and that taxonomic
    id is known. *)
Theorem yielded_records_come_from_lines (self : Accession2TaxidParser)
    (fs : filesystem) (store : Store) (arg : option string)
    (chunk_arg : option Z) (b : list AccessionRecord) (r : AccessionRecord) :
  b ∈ batches (accession2taxid self fs store arg chunk_arg) → r ∈ b →
  ∃ lines line,
    open fs (resolve arg (acc_file self)) = Ok lines ∧
    line ∈ readline lines ∧
    parsed line = Some (accession r, taxid r) ∧
    taxid r ∈ knownTaxonomicIds store.
Proof.
  intros Hb Hr.
  destruct (open fs (resolve arg (acc_file self))) as [lines|e] eqn:Hopen.
  2:{ destruct (accession2taxid_unopened self fs store arg chunk_arg e Hopen)
        as [Hnil _]. rewrite Hnil in Hb. by apply elem_of_nil in Hb. }
  destruct (accession2taxid_concat self fs store arg chunk_arg lines Hopen)
    as (lost & Hel & _).
  assert (r ∈ eligible_records self store (knownTaxonomicIds store) ∅
                (readline lines)) as Hin.
  { rewrite Hel. apply elem_of_app. left.
    apply list_elem_of_In, in_concat. exists b.
    split; by apply list_elem_of_In. }
  destruct (eligible_from_lines _ _ _ _ _ _ Hin) as (line & Hl & Hp & Hk).
  by exists lines, line.
Qed.

Lemma yielded_records_come_from_lines_witness :
  ∃ lines line,
    open Demo.fs (resolve None (acc_file (Demo.fast_mode "three.gz" 500))) =
      Ok lines ∧
    line ∈ readline lines ∧
    parsed line = Some (accession Demo.A2, taxid Demo.A2) ∧
    taxid Demo.A2 ∈ knownTaxonomicIds Demo.taxa_store.
Proof.
  apply (yielded_records_come_from_lines (Demo.fast_mode "three.gz" 500)
           Demo.fs Demo.taxa_store None None [Demo.A1; Demo.A2; Demo.A3]).
  - vm_compute. by left.
  - by right; left.
Defined.
